(** * DevFlow compatibility resolver: a shallow embedding and its properties

    The development follows the two source files that carry the algorithmic
    content of the package:

    - [devflow/tools/nuget_api.py]   (class [NuGetAPI]): identifier
      normalisation, the static framework table, the registry resolver;
    - [devflow/tools/google_search.py] (class [GoogleSearchAPI]): the
      text-evidence miner (version tokens, CVE identifiers, severities, the
      Java runtime chain).

    Python strings are modelled by [string] over the ASCII alphabet, Python
    sets of strings by [gset string], dictionaries read from the registry by
    records whose optional keys are [option] fields, the two static tables by
    association lists in source order, and exceptions by an explicit result
    type with [try]/[except] written out. *)

From Stdlib Require Import Ascii String List ZArith Lia Sorted Permutation.
From stdpp Require Import base option strings list gmap.

Set Warnings "-clear-no-such-hyp".

(** ** Python string primitives *)

Module Str.

(** [c.lower()] on one ASCII character: [A]..[Z] move to [a]..[z]. *)
Definition lower_ascii (c : ascii) : ascii :=
  let n := nat_of_ascii c in
  if (65 <=? n)%nat && (n <=? 90)%nat then ascii_of_nat (n + 32) else c.

(** [s.lower()] *)
Fixpoint lower (s : string) : string :=
  match s with
  | EmptyString => EmptyString
  | String c s' => String (lower_ascii c) (lower s')
  end.

(** [s.replace(old, new)] for a one-character [old]. *)
Fixpoint replace (old : ascii) (new : string) (s : string) : string :=
  match s with
  | EmptyString => EmptyString
  | String c s' =>
      if Ascii.eqb c old then new +:+ replace old new s'
      else String c (replace old new s')
  end.

(** [s.startswith(p)] *)
Definition startswith (s p : string) : bool := String.prefix p s.

(** [sub in s] for strings: some suffix of [s] starts with [sub]. *)
Fixpoint contains (sub s : string) : bool :=
  String.prefix sub s ||
  match s with
  | EmptyString => false
  | String _ s' => contains sub s'
  end.

(** [\d] restricted to ASCII. *)
Definition is_digit (c : ascii) : bool :=
  match c with
  | "0" | "1" | "2" | "3" | "4" | "5" | "6" | "7" | "8" | "9" => true
  | _ => false
  end%char.

(** Every character of [s] satisfies [p]. *)
Fixpoint all (p : ascii -> bool) (s : string) : bool :=
  match s with
  | EmptyString => true
  | String c s' => p c && all p s'
  end.

(** [a < b] on [str]: lexicographic on code points. *)
Definition lt (a b : string) : bool := String.ltb a b.

(** A character that survives identifier normalisation: already lower
    case, and neither of the two separators. *)
Definition canonical_char (c : ascii) : bool :=
  Ascii.eqb (lower_ascii c) c
  && negb (Ascii.eqb c ".") && negb (Ascii.eqb c "-").

End Str.

(** ** Python exceptions, results and sorting *)

Module Py.

(** The exception classes that occur in the modelled functions.  All of them
    derive from [Exception]; only [RequestException] is what the registry
    handlers name. *)
Inductive exn_class :=
| RequestException   (* requests.exceptions.RequestException and subclasses *)
| HttpError          (* googleapiclient.errors.HttpError *)
| InvalidVersion     (* packaging.version.InvalidVersion *)
| TypeError
| OtherException.

Definition exn_class_eqb (a b : exn_class) : bool :=
  match a, b with
  | RequestException, RequestException | HttpError, HttpError
  | InvalidVersion, InvalidVersion | TypeError, TypeError
  | OtherException, OtherException => true
  | _, _ => false
  end.

(** An exception value: its class and [str(e)]. *)
Record exn := Exn { class_of : exn_class; str : string }.

(** The outcome of running a piece of Python code. *)
Inductive result (A : Type) :=
| Return (a : A)
| Raise (e : exn).
Arguments Return {A} a.
Arguments Raise {A} e.

#[global] Instance result_ret : MRet result := @Return.
#[global] Instance result_bind : MBind result :=
  fun A B f m => match m with Return a => f a | Raise e => Raise e end.

(** An [except] clause: the classes it names, and its handler. *)
Definition clause (A : Type) : Type := (exn_class -> bool) * (exn -> result A).

(** [except SomeClass as e]. *)
Definition only (c : exn_class) : exn_class -> bool := exn_class_eqb c.
(** [except Exception as e]: every modelled class derives from it. *)
Definition Exception : exn_class -> bool := fun _ => true.

Fixpoint handle {A : Type} (e : exn) (clauses : list (clause A)) : result A :=
  match clauses with
  | [] => Raise e
  | (catches, handler) :: rest =>
      if catches (class_of e) then handler e else handle e rest
  end.

(** [try: body  except ...: ...]: the first clause naming the class of the
    exception runs; with no such clause the exception propagates. *)
Definition try_except {A : Type} (body : result A) (clauses : list (clause A))
  : result A :=
  match body with
  | Return a => Return a
  | Raise e => handle e clauses
  end.

(** The uniform result envelope: [{"status": "success", ...fields}] or
    [{"status": "error", "message": ...}]. *)
Inductive envelope (A : Type) :=
| Success (fields : A)
| Error (message : string).
Arguments Success {A} fields.
Arguments Error {A} message.


(** [a < b] between two values each of which is a [str] or [None]: only two
    strings are comparable. *)
Definition lt_optional_str (a b : option string) : result bool :=
  match a, b with
  | Some a, Some b => Return (Str.lt a b)
  | Some _, None =>
      Raise (Exn TypeError
               "'<' not supported between instances of 'str' and 'NoneType'")
  | None, Some _ =>
      Raise (Exn TypeError
               "'<' not supported between instances of 'NoneType' and 'str'")
  | None, None =>
      Raise (Exn TypeError
               "'<' not supported between instances of 'NoneType' and 'NoneType'")
  end.

(** [for x in xs: acc = body(acc, x)], stopping at the first exception. *)
Fixpoint for_each {A B : Type} (body : B -> A -> result B)
    (xs : list A) (acc : B) : result B :=
  match xs with
  | [] => Return acc
  | x :: xs' => acc' ← body acc x; for_each body xs' acc'
  end.

(** [sorted(l, key=key, reverse=reverse)] and [l.sort(key=..., reverse=...)].

    The keys are computed once for the whole list, the decorated list is
    sorted with [<] on keys, and the result is stable: elements with equal
    keys keep their relative order, in either direction.  A stable
    insertion sort produces the same list as the library sort whenever no
    comparison raises; when a comparison raises, the sort raises (each
    element of a list of two or more takes part in some comparison in
    either algorithm). *)
Section Sort.

Context {A K : Type} (key : A -> result K) (lt : K -> K -> result bool).

(** [x] came before every element of [l] in the input: it goes before the
    first element that must not precede it, that is, the first [y] that
    is not smaller than [x] (ascending) or not larger than [x]
    (descending). *)
Fixpoint insert (reverse : bool) (x : K * A) (l : list (K * A))
  : result (list (K * A)) :=
  match l with
  | [] => Return [x]
  | y :: l' =>
      b ← (if reverse then lt (fst x) (fst y) else lt (fst y) (fst x));
      if b : bool then r ← insert reverse x l'; Return (y :: r)
      else Return (x :: y :: l')
  end.

Fixpoint sort_decorated (reverse : bool) (l : list (K * A))
  : result (list (K * A)) :=
  match l with
  | [] => Return []
  | x :: l' => s ← sort_decorated reverse l'; insert reverse x s
  end.

Definition sorted (reverse : bool) (l : list A) : result (list A) :=
  keys ← mapM key l;
  s ← sort_decorated reverse (zip keys l);
  Return (map snd s).

End Sort.

(** Descending order, on decorated elements: the second does not sort
    before the first. *)
Definition key_ge {A K : Type} (ltb : K -> K -> bool) (p q : K * A) : Prop :=
  ltb (fst p) (fst q) = false.

(** Descending order, on elements: both keys are defined and the second is
    not the larger. *)
Definition by_key_ge {A K : Type} (ltb : K -> K -> bool) (key : A -> result K)
    (a b : A) : Prop :=
  exists ka kb, key a = Return ka /\ key b = Return kb /\ ltb ka kb = false.

(** [sorted(l)] and [sorted(l, reverse=True)] on a list of strings. *)
Definition sorted_str (reverse : bool) (l : list string) : result (list string) :=
  sorted (fun x => Return x) (fun a b => Return (Str.lt a b)) reverse l.

End Py.

(** ** Python dictionaries with a fixed literal content *)

Module Dict.

(** [d.get(k)] on a dictionary given by its items in source order. *)
Fixpoint get {V : Type} (k : string) (d : list (string * V)) : option V :=
  match d with
  | [] => None
  | (k', v) :: d' => if String.eqb k k' then Some v else get k d'
  end.

(** [d.keys()] *)
Definition keys {V : Type} (d : list (string * V)) : list string := map fst d.

End Dict.

(** ** The registry client, [NuGetAPI] : identifiers and the static table *)

Module NuGetAPI.

(** [NuGetAPI.FRAMEWORK_COMPATIBILITY], rows in source order. *)
Definition full_chain : list string :=
  ["net48"; "net472"; "net471"; "net47"; "net462"; "net461"; "net46";
   "net452"; "net451"; "net45"; "net40"; "net35"; "net20"].

Definition FRAMEWORK_COMPATIBILITY : list (string * list string) :=
  [ ("netstandard1.0", ["net45"; "net40"; "net35"; "net20"]);
    ("netstandard1.1", ["net45"; "net40"; "net35"; "net20"]);
    ("netstandard1.2", ["net45"; "net40"; "net35"; "net20"]);
    ("netstandard1.3", ["net45"; "net40"; "net35"; "net20"]);
    ("netstandard1.4", ["net45"; "net40"; "net35"; "net20"]);
    ("netstandard1.5", ["net45"; "net40"; "net35"; "net20"]);
    ("netstandard1.6", ["net45"; "net40"; "net35"; "net20"]);
    ("netstandard2.0", full_chain);
    ("netstandard2.1", full_chain);
    ("net6.0", full_chain);
    ("net7.0", full_chain);
    ("net8.0", full_chain);
    ("net48", full_chain);
    ("net472", ["net472"; "net471"; "net47"; "net462"; "net461"; "net46";
                "net452"; "net451"; "net45"; "net40"; "net35"; "net20"]);
    ("net471", ["net471"; "net47"; "net462"; "net461"; "net46"; "net452";
                "net451"; "net45"; "net40"; "net35"; "net20"]);
    ("net47", ["net47"; "net462"; "net461"; "net46"; "net452"; "net451";
               "net45"; "net40"; "net35"; "net20"]);
    ("net462", ["net462"; "net461"; "net46"; "net452"; "net451"; "net45";
                "net40"; "net35"; "net20"]);
    ("net461", ["net461"; "net46"; "net452"; "net451"; "net45"; "net40";
                "net35"; "net20"]);
    ("net46", ["net46"; "net452"; "net451"; "net45"; "net40"; "net35";
               "net20"]);
    ("net452", ["net452"; "net451"; "net45"; "net40"; "net35"; "net20"]);
    ("net451", ["net451"; "net45"; "net40"; "net35"; "net20"]);
    ("net45", ["net45"; "net40"; "net35"; "net20"]);
    ("net40", ["net40"; "net35"; "net20"]);
    ("net35", ["net35"; "net20"]);
    ("net20", ["net20"]) ].

(** [_normalize_framework]: lower-case, drop ['.'] and ['-'], and make sure
    the token starts with ["net"]. *)
Definition _normalize_framework (framework : string) : string :=
  let framework :=
    Str.replace "-" "" (Str.replace "." "" (Str.lower framework)) in
  if Str.startswith framework "net" then framework
  else "net" +:+ framework.

(** One dependency group of a catalog entry; [targetFramework] is the
    optional key read with [group.get("targetFramework", "")]. *)
Record dependency_group := {
  targetFramework : option string
}.

(** [_get_supported_frameworks]: the loop adds the normalised name of every
    group whose [targetFramework] is present and non-empty. *)
Definition add_group (frameworks : gset string) (group : dependency_group)
  : gset string :=
  let framework := default "" (targetFramework group) in
  if bool_decide (framework = "") then frameworks
  else frameworks ∪ {[ _normalize_framework framework ]}.

Definition _get_supported_frameworks (dependency_groups : list dependency_group)
  : gset string :=
  fold_left add_group dependency_groups ∅.

(** [any(f in supported for f in compatible_frameworks)] *)
Definition any_supported (supported : gset string) (compatible_frameworks : list string)
  : bool :=
  existsb (fun f => bool_decide (f ∈ supported)) compatible_frameworks.

(** The [for framework, compatible_frameworks in ....items()] loop of
    [_is_framework_compatible], returning at the first row that holds the
    target and a supported framework. *)
Fixpoint mapping_loop (target : string) (supported : gset string)
    (items : list (string * list string)) : bool :=
  match items with
  | [] => false
  | (framework, compatible_frameworks) :: items' =>
      if bool_decide (target ∈ compatible_frameworks)
         && any_supported supported compatible_frameworks
      then true
      else mapping_loop target supported items'
  end.

Definition _is_framework_compatible (target : string) (supported : gset string)
  : bool :=
  let target := _normalize_framework target in
  if bool_decide (target ∈ supported) then true
  else mapping_loop target supported FRAMEWORK_COMPATIBILITY.

(** *** The registry resolver *)

(** [packaging.version] is an external library.  Its parser and the order
    of parsed versions are parameters of the model: [parse_version s] is
    [None] when [Version(s)] raises [InvalidVersion], and [version_lt] is
    [<] on parsed versions. *)
Class PackagingVersion := {
  version_key : Type;
  parse_version : string -> option version_key;
  version_lt : version_key -> version_key -> bool
}.

(** [Version(s)] for a string [s]. *)
Definition Version `{PackagingVersion} (version : string) : Py.result version_key :=
  match parse_version version with
  | Some v => Py.Return v
  | None => Py.Raise (Py.Exn Py.InvalidVersion ("Invalid version: '" +:+ version +:+ "'"))
  end.

(** [Version(None)]: the parser's pattern search rejects a non-string. *)
Definition Version_None {A : Type} : Py.result A :=
  Py.Raise (Py.Exn Py.TypeError "expected string or bytes-like object").

(** A [catalogEntry] of the registration index, with the keys the client
    reads.  [version], [published] and [downloads] are read with [.get] and
    may be absent; an absent [dependencyGroups] reads as the empty list. *)
Record catalog_entry := {
  version : option string;
  published : option string;
  downloads : option Z;
  dependencyGroups : list dependency_group
}.

(** The decoded registration index: [data["items"]] is a list of pages and
    each page's ["items"] a list of leaves, each holding one catalog entry.
    Absent lists read as empty, an absent [catalogEntry] as the entry with
    every key absent. *)
Definition registration_index : Type := list (list catalog_entry).

(** One element of ["versions"] in the answer of [get_package_versions]. *)
Record version_summary := {
  vs_version : option string;
  vs_published : option string;
  vs_downloads : Z
}.

Record versions_result := {
  vr_package_id : string;
  vr_versions : list version_summary
}.

(** One element of ["version_details"]. *)
Record version_info := {
  vi_version : string;
  vi_published : option string;
  vi_downloads : Z;
  vi_supported_frameworks : gset string
}.

Record compatible_versions_result := {
  cv_package_id : string;
  cv_target_framework : string;
  compatible_versions : list string;
  latest_compatible : option string;
  version_details : list version_info
}.

(** [get_package_versions].  [response] is what
    [session.get(url); raise_for_status(); response.json()] produced: the
    decoded index, or the exception the transport raised. *)
Definition summary_of (version_data : catalog_entry) : version_summary :=
  {| vs_version := version version_data;
     vs_published := published version_data;
     vs_downloads := default 0%Z (downloads version_data) |}.

Definition get_package_versions
    (response : Py.result registration_index) (package_id : string)
  : Py.result (Py.envelope versions_result) :=
  Py.try_except
    (data ← response;
     let versions := flat_map (map summary_of) data in
     sorted ← Py.sorted (fun x => Py.Return (vs_version x))
                        Py.lt_optional_str true versions;
     Py.Return (Py.Success {| vr_package_id := package_id;
                              vr_versions := sorted |}))
    [ (Py.only Py.RequestException,
       fun e => Py.Return (Py.Error ("Failed to fetch versions: " +:+ Py.str e))) ].

Section Resolver.

Context `{PackagingVersion}.

(** The body of the inner loop of [get_compatible_versions] for one
    catalog entry; the accumulator is the pair of lists
    [compatible_versions], [version_details]. *)
Definition visit_entry (target_framework : string)
    (acc : list string * list version_info) (version_data : catalog_entry)
  : Py.result (list string * list version_info) :=
  match version version_data with
  | None => Version_None
  | Some version =>
      match Version version with
      | Py.Raise e =>
          if Py.only Py.InvalidVersion (Py.class_of e)
          then Py.Return acc                       (* continue *)
          else Py.Raise e
      | Py.Return _ =>
          let framework_groups := dependencyGroups version_data in
          let supported_frameworks := _get_supported_frameworks framework_groups in
          if _is_framework_compatible target_framework supported_frameworks
          then
            let version_info :=
              {| vi_version := version;
                 vi_published := published version_data;
                 vi_downloads := default 0%Z (downloads version_data);
                 vi_supported_frameworks := supported_frameworks |} in
            Py.Return (fst acc ++ [version], snd acc ++ [version_info])
          else Py.Return acc
      end
  end.

Definition visit_page (target_framework : string)
    (acc : list string * list version_info) (entry : list catalog_entry)
  : Py.result (list string * list version_info) :=
  Py.for_each (visit_entry target_framework) entry acc.

Definition get_compatible_versions
    (response : Py.result registration_index)
    (package_id target_framework : string) (current_version : option string)
  : Py.result (Py.envelope compatible_versions_result) :=
  Py.try_except
    (let target_framework := _normalize_framework target_framework in
     data ← response;
     acc ← Py.for_each (visit_page target_framework) data ([], []);
     compatible_versions ←
       Py.sorted Version
         (fun a b => Py.Return (version_lt a b)) true (fst acc);
     version_details ←
       Py.sorted (fun x => Version (vi_version x))
         (fun a b => Py.Return (version_lt a b)) true (snd acc);
     Py.Return (Py.Success
       {| cv_package_id := package_id;
          cv_target_framework := target_framework;
          compatible_versions := compatible_versions;
          latest_compatible := head compatible_versions;
          version_details := version_details |}))
    [ (Py.only Py.RequestException,
       fun e => Py.Return
                  (Py.Error ("Failed to fetch compatible versions: " +:+ Py.str e)));
      (Py.Exception,
       fun e => Py.Return (Py.Error ("Unexpected error: " +:+ Py.str e))) ].

End Resolver.

(** *** Specification-level counterparts, used to state what the resolver
    computes *)

(** The two properties of [<] on parsed versions that sorting relies on. *)
Class PackagingVersionLaws `{PackagingVersion} : Prop := {
  version_lt_asym :
    forall a b, version_lt a b = true -> version_lt b a = false;
  version_lt_negtrans :
    forall a b c,
      version_lt a b = false -> version_lt b c = false -> version_lt a c = false
}.

(** The set a record declares: the normalised target framework of each of
    its dependency groups that names one. *)
Definition declared_frameworks (groups : list dependency_group) : gset string :=
  list_to_set
    (map _normalize_framework
         (filter (fun f => f <> "") (omap targetFramework groups))).

Section Selection.

Context `{PackagingVersion}.





End Selection.

(** Every record of the catalog carries a version string. *)
Definition versions_present (data : registration_index) : Prop :=
  Forall (fun e => is_Some (version e)) (concat data).

End NuGetAPI.

(** ** Release-only versions: an instance of the version parameters

    Dotted sequences of decimal numbers, compared component by component with
    trailing zero components ignored.  This is how the external parser reads
    and orders versions made of a release segment only; the instance serves
    to run the resolver on concrete catalogs. *)

Module Release.

Definition digit_value (c : ascii) : N := (N_of_ascii c - 48)%N.

(** [cur] is the number being read (if a digit was seen since the last
    dot), [acc] the components read so far, most recent first. *)
Fixpoint components (cur : option N) (acc : list N) (s : string)
  : option (list N) :=
  match s with
  | EmptyString =>
      match cur with Some n => Some (rev (n :: acc)) | None => None end
  | String c s' =>
      if Str.is_digit c
      then components (Some (10 * default 0 cur + digit_value c)%N) acc s'
      else if Ascii.eqb c "."
           then match cur with
                | Some n => components None (n :: acc) s'
                | None => None
                end
           else None
  end.

Fixpoint drop_zeros (l : list N) : list N :=
  match l with
  | 0%N :: l' => drop_zeros l'
  | _ => l
  end.

Definition parse (s : string) : option (list N) :=
  match components None [] s with
  | Some l => Some (rev (drop_zeros (rev l)))
  | None => None
  end.

Fixpoint lt (a b : list N) : bool :=
  match a, b with
  | [], [] => false
  | [], _ :: _ => true
  | _ :: _, [] => false
  | x :: a', y :: b' =>
      if (x <? y)%N then true else if (y <? x)%N then false else lt a' b'
  end.

#[global] Instance packaging : NuGetAPI.PackagingVersion := {|
  NuGetAPI.version_key := list N;
  NuGetAPI.parse_version := parse;
  NuGetAPI.version_lt := lt
|}.

End Release.

(** ** The regular expressions of the miner

    The three patterns passed to [re.findall] are sequences of literal
    characters, greedy digit repetitions and one negative lookahead for a
    single character.  The matcher below is the backtracking search of [re]
    on that fragment: a repetition first takes as many digits as it may and
    gives them back one at a time while the rest of the pattern fails. *)

Module Re.

Inductive item :=
| Lit (c : ascii)                       (* the character [c] *)
| Digits (lo : nat) (hi : option nat)   (* [\d{lo,hi}]; [\d+] is [Digits 1 None] *)
| NotAhead (c : ascii).                 (* [(?!c)] *)

Definition pattern : Type := list item.

(** Whether a repetition bounded by [hi] may take one more digit. *)
Definition may_take (hi : option nat) : bool :=
  match hi with
  | Some 0 => false
  | _ => true
  end.

(** Greedy [\d{lo,hi}] followed by the continuation [k]; the result is the
    text matched from here on. *)
Fixpoint digits (k : string -> option string) (lo : nat) (hi : option nat)
    (s : string) : option string :=
  let stop := match lo with 0 => k s | S _ => None end in
  match s with
  | EmptyString => stop
  | String c s' =>
      if Str.is_digit c && may_take hi
      then match digits k (pred lo) (pred <$> hi) s' with
           | Some m => Some (String c m)
           | None => stop
           end
      else stop
  end.

(** The text matched by [p] at the start of [s], if [p] matches there. *)
Fixpoint match_here (p : pattern) (s : string) : option string :=
  match p with
  | [] => Some EmptyString
  | Lit c :: p' =>
      match s with
      | String c' s' =>
          if Ascii.eqb c c' then String c <$> match_here p' s' else None
      | EmptyString => None
      end
  | Digits lo hi :: p' => digits (match_here p') lo hi s
  | NotAhead c :: p' =>
      match s with
      | String c' _ => if Ascii.eqb c c' then None else match_here p' s
      | EmptyString => match_here p' s
      end
  end.

(** The left-to-right scan of [re.findall]: [skip] counts the characters
    still covered by the last match. *)
Fixpoint scan (p : pattern) (skip : nat) (s : string) : list string :=
  match s with
  | EmptyString =>
      match skip, match_here p EmptyString with
      | 0, Some m => [m]
      | _, _ => []
      end
  | String c s' =>
      match skip with
      | S n => scan p n s'
      | 0 =>
          match match_here p s with
          | Some m => m :: scan p (pred (String.length m)) s'
          | None => scan p 0 s'
          end
      end
  end.

(** [re.findall(p, s)] for a pattern without groups: the non-overlapping
    matches, leftmost first. *)
Definition findall (p : pattern) (s : string) : list string := scan p 0 s.

(** The next character of [s] is a digit. *)
Definition digit_ahead (s : string) : bool :=
  match s with
  | EmptyString => false
  | String c _ => Str.is_digit c
  end.

(** The characters a pattern can put into a match are among those that
    satisfy [q]. *)
Definition literals_in (q : ascii -> bool) (p : pattern) : bool :=
  forallb (fun i => match i with Lit c => q c | _ => true end) p.

End Re.

(** ** The text-evidence miner, [GoogleSearchAPI] *)

Module GoogleSearchAPI.

(** [GoogleSearchAPI.JAVA_RUNTIME_COMPATIBILITY], rows in source order. *)
Definition JAVA_RUNTIME_COMPATIBILITY : list (string * list string) :=
  [ ("java21", ["java20"; "java19"; "java18"; "java17"; "java16"; "java15";
                "java14"; "java13"; "java12"; "java11"; "java8"]);
    ("java20", ["java19"; "java18"; "java17"; "java16"; "java15"; "java14";
                "java13"; "java12"; "java11"; "java8"]);
    ("java19", ["java18"; "java17"; "java16"; "java15"; "java14"; "java13";
                "java12"; "java11"; "java8"]);
    ("java18", ["java17"; "java16"; "java15"; "java14"; "java13"; "java12";
                "java11"; "java8"]);
    ("java17", ["java16"; "java15"; "java14"; "java13"; "java12"; "java11";
                "java8"]);
    ("java16", ["java15"; "java14"; "java13"; "java12"; "java11"; "java8"]);
    ("java15", ["java14"; "java13"; "java12"; "java11"; "java8"]);
    ("java14", ["java13"; "java12"; "java11"; "java8"]);
    ("java13", ["java12"; "java11"; "java8"]);
    ("java12", ["java11"; "java8"]);
    ("java11", ["java8"]);
    ("java8", ["java8"]) ].

(** One element of ["results"] as [search] builds it; the [pagemap] extras
    are not read by any extraction function. *)
Record search_result := {
  title : string;
  link : string;
  snippet : string
}.

(** [f"{result['title']} {result['snippet']}"] *)
Definition text_of (result : search_result) : string :=
  title result +:+ " " +:+ snippet result.

(** [r'\d+\.\d+\.\d+'] *)
Definition three_component : Re.pattern :=
  [Re.Digits 1 None; Re.Lit "."; Re.Digits 1 None; Re.Lit "."; Re.Digits 1 None].

(** [r'\d+\.\d+(?!\.)'] *)
Definition two_component : Re.pattern :=
  [Re.Digits 1 None; Re.Lit "."; Re.Digits 1 None; Re.NotAhead "."].

(** [r'CVE-\d{4}-\d{4,7}'] *)
Definition cve_pattern : Re.pattern :=
  [Re.Lit "C"; Re.Lit "V"; Re.Lit "E"; Re.Lit "-"; Re.Digits 4 (Some 4);
   Re.Lit "-"; Re.Digits 4 (Some 7)].

(** *** [extract_versions] *)

(** The condition of the [if] in the loops: the lower-cased text mentions
    both names. *)
Definition mentions (package_name target_framework text : string) : bool :=
  Str.contains (Str.lower package_name) text
  && Str.contains (Str.lower target_framework) text.

(** The loop body: [versions.update(...)] twice for a result that mentions
    both the package and the framework. *)
Definition collect_versions (package_name target_framework : string)
    (versions : gset string) (result : search_result) : gset string :=
  let text := Str.lower (text_of result) in
  if mentions package_name target_framework text then
    let versions := versions ∪ list_to_set (Re.findall three_component text) in
    versions ∪ list_to_set (Re.findall two_component text)
  else versions.

Definition extract_versions (search_results : list search_result)
    (package_name target_framework : string) : Py.result (list string) :=
  let versions :=
    fold_left (collect_versions package_name target_framework) search_results ∅ in
  Py.sorted_str true (elements versions).

(** *** Vulnerabilities *)

Definition _extract_severity (text : string) : string :=
  let text := Str.lower text in
  if Str.contains "critical" text then "critical"
  else if Str.contains "high" text then "high"
  else if Str.contains "medium" text then "medium"
  else if Str.contains "low" text then "low"
  else "unknown".

Record vulnerability := {
  v_id : string;
  v_source : string;
  v_description : string;
  v_severity : string
}.

Record vulnerability_info := {
  has_vulnerabilities : bool;
  vulnerabilities : list vulnerability
}.

(** The loop body of [_extract_vulnerability_info]: one record is appended
    for each element of [cve_matches]. *)
Definition collect_vulnerabilities (vulnerabilities : list vulnerability)
    (result : search_result) : list vulnerability :=
  let text := text_of result in
  let cve_matches := Re.findall cve_pattern text in
  match cve_matches with
  | [] => vulnerabilities
  | _ :: _ =>
      fold_left
        (fun vulnerabilities cve =>
           vulnerabilities ++
           [ {| v_id := cve;
                v_source := link result;
                v_description := snippet result;
                v_severity := _extract_severity text |} ])
        cve_matches vulnerabilities
  end.

Definition _extract_vulnerability_info (results : list search_result)
    (package_name version : string) : vulnerability_info :=
  let vulnerabilities := fold_left collect_vulnerabilities results [] in
  {| has_vulnerabilities := (0 <? length vulnerabilities)%nat;
     vulnerabilities := vulnerabilities |}.

(** *** Java runtimes *)

(** An element of ["evidence"] or ["recommendations"]. *)
Record excerpt := {
  ex_source : string;
  ex_text : string
}.

(** The accumulator [compatibility_info] while the loop runs;
    [supported_runtimes] is still a set. *)
Record java_accumulator := {
  acc_is_compatible : bool;
  acc_evidence : list excerpt;
  acc_recommendations : list excerpt;
  acc_supported_runtimes : gset string
}.

(** What [_extract_java_compatibility_info] returns. *)
Record java_compatibility_info := {
  is_compatible : bool;
  evidence : list excerpt;
  recommendations : list excerpt;
  supported_runtimes : list string
}.

Definition indicators : list string :=
  ["compatible"; "supported"; "works with"; "runs on"].

Definition excerpt_of (result : search_result) : excerpt :=
  {| ex_source := link result; ex_text := snippet result |}.

(** One iteration of the loop over [results]. *)
Definition scan_result (package_name target_runtime : string)
    (info : java_accumulator) (result : search_result) : java_accumulator :=
  let text := Str.lower (text_of result) in
  if Str.contains (Str.lower package_name) text then
    let runtimes :=
      fold_left
        (fun found runtime =>
           if Str.contains runtime text then found ∪ {[ runtime ]} else found)
        (Dict.keys JAVA_RUNTIME_COMPATIBILITY)
        (acc_supported_runtimes info) in
    let direct :=
      Str.contains (Str.lower target_runtime) text
      && existsb (fun indicator => Str.contains indicator text) indicators in
    let recommended :=
      Str.contains "recommend" text || Str.contains "suggest" text in
    {| acc_is_compatible := if direct then true else acc_is_compatible info;
       acc_evidence :=
         if direct then acc_evidence info ++ [excerpt_of result]
         else acc_evidence info;
       acc_recommendations :=
         if recommended then acc_recommendations info ++ [excerpt_of result]
         else acc_recommendations info;
       acc_supported_runtimes := runtimes |}
  else info.

(** The runtime chain check, lines "Check runtime compatibility chain" of
    [_extract_java_compatibility_info]: some supported runtime occurs in
    the table's list for the lower-cased target; a target without a row
    reads the empty list. *)
Definition is_compatible_chain (target_runtime : string)
    (supported_runtimes : gset string) : bool :=
  let target_runtime := Str.lower target_runtime in
  existsb
    (fun runtime =>
       bool_decide
         (runtime ∈ default [] (Dict.get target_runtime JAVA_RUNTIME_COMPATIBILITY)))
    (elements supported_runtimes).

Definition _extract_java_compatibility_info (results : list search_result)
    (package_name target_runtime : string)
  : Py.result java_compatibility_info :=
  let info :=
    fold_left (scan_result package_name target_runtime) results
      {| acc_is_compatible := false; acc_evidence := [];
         acc_recommendations := []; acc_supported_runtimes := ∅ |} in
  let compatible :=
    if acc_is_compatible info then true
    else is_compatible_chain target_runtime (acc_supported_runtimes info) in
  runtimes ← Py.sorted_str false (elements (acc_supported_runtimes info));
  Py.Return {| is_compatible := compatible;
               evidence := acc_evidence info;
               recommendations := acc_recommendations info;
               supported_runtimes := runtimes |}.

(** *** Specification-level counterparts *)

(** The severity keywords in priority order. *)
Definition severity_keywords : list string := ["critical"; "high"; "medium"; "low"].

(** First-match priority over the keyword list, ["unknown"] by default. *)
Definition first_keyword (text : string) : string :=
  default "unknown"
    (find (fun keyword => Str.contains keyword (Str.lower text)) severity_keywords).

(** The record reported for the match [cve] found in [result]. *)
Definition record_of (result : search_result) (cve : string) : vulnerability :=
  {| v_id := cve;
     v_source := link result;
     v_description := snippet result;
     v_severity := first_keyword (text_of result) |}.

(** A character that can occur in a version token. *)
Definition version_char (c : ascii) : bool := Str.is_digit c || Ascii.eqb c ".".

(** [s] does not begin, respectively end, with a version character. *)
Definition starts_clear (s : string) : bool :=
  match s with
  | EmptyString => true
  | String c _ => negb (version_char c)
  end.

Fixpoint ends_clear (s : string) : bool :=
  match s with
  | EmptyString => true
  | String c EmptyString => negb (version_char c)
  | String _ s' => ends_clear s'
  end.

(** The last character of a non-empty string, as a string. *)
Fixpoint last_char (s : string) : string :=
  match s with
  | EmptyString => EmptyString
  | String c EmptyString => String c EmptyString
  | String _ s' => last_char s'
  end.

(** A non-empty run of digits. *)
Definition number (s : string) : bool :=
  Str.all Str.is_digit s && negb (String.eqb s "").

(** What a result contributes to [extract_versions]: the matches of either
    pattern in its lower-cased text, when that text mentions both names. *)
Definition contributes (package_name target_framework : string)
    (r : search_result) (v : string) : Prop :=
  mentions package_name target_framework (Str.lower (text_of r)) = true
  /\ (v ∈ Re.findall three_component (Str.lower (text_of r))
      \/ v ∈ Re.findall two_component (Str.lower (text_of r))).

(** A pattern for version tokens: what it matches is a non-empty prefix of
    the text, made of digits and dots. *)
Definition version_pattern (p : Re.pattern) : Prop :=
  forall s m, Re.match_here p s = Some m ->
    m <> "" /\ Str.all version_char m = true /\ exists u, s = m +:+ u.

End GoogleSearchAPI.

(** ** The registry client: the remaining operations

    [get_package_dependencies], [get_package_metadata],
    [check_package_vulnerabilities] and [get_latest_compatible_version] read
    more keys of the registration index than the resolver does; the records
    below carry them.  As before a [.get] key is an [option] field, an
    absent list reads as empty, and a key that is present holds a value of
    the JSON type the registry documents for it. *)

Module NuGetOperations.

Import NuGetAPI.

(** One element of a group's ["dependencies"]. *)
Record dependency := {
  dep_id : option string;
  dep_range : option string
}.

(** One element of ["dependencyGroups"], with its dependencies. *)
Record group_detail := {
  gd_targetFramework : option string;
  gd_dependencies : list dependency
}.

(** A [catalogEntry] with every key the four operations read. *)
Record catalog_detail := {
  cd_id : option string;
  cd_version : option string;
  cd_authors : option (list string);
  cd_description : option string;
  cd_projectUrl : option string;
  cd_licenseUrl : option string;
  cd_tags : option (list string);
  cd_published : option string;
  cd_downloads : option Z;
  cd_dependencyGroups : list group_detail
}.

(** Pages of leaves, as in [NuGetAPI.registration_index]. *)
Definition detailed_index : Type := list (list catalog_detail).

(** What the resolver sees of a detailed entry. *)
Definition group_view (g : group_detail) : dependency_group :=
  {| targetFramework := gd_targetFramework g |}.

Definition entry_view (e : catalog_detail) : catalog_entry :=
  {| version := cd_version e;
     published := cd_published e;
     downloads := cd_downloads e;
     dependencyGroups := map group_view (cd_dependencyGroups e) |}.

Definition index_view (data : detailed_index) : registration_index :=
  map (map entry_view) data.

(** *** [get_package_dependencies] *)

(** One element of ["dependencies"] in the answer. *)
Record dependency_info := {
  di_id : option string;
  di_version_range : option string;
  di_type : string
}.

Record dependencies_result := {
  dr_package_id : string;
  dr_version : string;
  dr_target_framework : string;
  dr_dependencies : list dependency_info
}.

(** The innermost loop: [dependencies.append({...})] for each [dep]. *)
Definition add_dependency (dependencies : list dependency_info) (dep : dependency)
  : list dependency_info :=
  dependencies ++ [ {| di_id := dep_id dep;
                       di_version_range := dep_range dep;
                       di_type := "direct" |} ].

(** [if group.get("targetFramework") == target_framework: for dep in ...] *)
Definition visit_group (target_framework : string)
    (dependencies : list dependency_info) (group : group_detail)
  : list dependency_info :=
  if bool_decide (gd_targetFramework group = Some target_framework)
  then fold_left add_dependency (gd_dependencies group) dependencies
  else dependencies.

(** [if version_entry.get("catalogEntry", {}).get("version") == version: ...] *)
Definition visit_leaf (version target_framework : string)
    (dependencies : list dependency_info) (version_entry : catalog_detail)
  : list dependency_info :=
  if bool_decide (cd_version version_entry = Some version)
  then fold_left (visit_group target_framework)
         (cd_dependencyGroups version_entry) dependencies
  else dependencies.

Definition get_package_dependencies
    (response : Py.result detailed_index)
    (package_id version target_framework : string)
  : Py.result (Py.envelope dependencies_result) :=
  Py.try_except
    (data ← response;
     let dependencies :=
       fold_left
         (fun dependencies entry =>
            fold_left (visit_leaf version target_framework) entry dependencies)
         data [] in
     Py.Return (Py.Success {| dr_package_id := package_id;
                              dr_version := version;
                              dr_target_framework := target_framework;
                              dr_dependencies := dependencies |}))
    [ (Py.only Py.RequestException,
       fun e => Py.Return (Py.Error ("Failed to fetch dependencies: " +:+ Py.str e))) ].

(** *** [get_package_metadata] *)

(** The dictionary assigned to [metadata] at a matching leaf. *)
Record package_metadata := {
  pm_id : option string;
  pm_version : option string;
  pm_authors : list string;
  pm_description : option string;
  pm_project_url : option string;
  pm_license_url : option string;
  pm_tags : list string;
  pm_published : option string;
  pm_downloads : Z
}.

(** ["metadata"] in the answer; [None] is the empty dictionary the variable
    is initialised with. *)
Record metadata_result := {
  mr_package_id : string;
  mr_version : string;
  mr_metadata : option package_metadata
}.

Definition metadata_of (catalog_entry : catalog_detail) : package_metadata :=
  {| pm_id := cd_id catalog_entry;
     pm_version := cd_version catalog_entry;
     pm_authors := default [] (cd_authors catalog_entry);
     pm_description := cd_description catalog_entry;
     pm_project_url := cd_projectUrl catalog_entry;
     pm_license_url := cd_licenseUrl catalog_entry;
     pm_tags := default [] (cd_tags catalog_entry);
     pm_published := cd_published catalog_entry;
     pm_downloads := default 0%Z (cd_downloads catalog_entry) |}.

(** The inner loop over one page: at the first leaf with the version,
    [metadata] is assigned and [break] leaves this loop (and only this
    one). *)
Fixpoint scan_page (version : string) (metadata : option package_metadata)
    (leaves : list catalog_detail) : option package_metadata :=
  match leaves with
  | [] => metadata
  | version_entry :: rest =>
      if bool_decide (cd_version version_entry = Some version)
      then Some (metadata_of version_entry)                 (* break *)
      else scan_page version metadata rest
  end.

Definition get_package_metadata
    (response : Py.result detailed_index) (package_id version : string)
  : Py.result (Py.envelope metadata_result) :=
  Py.try_except
    (data ← response;
     let metadata := fold_left (scan_page version) data None in
     Py.Return (Py.Success {| mr_package_id := package_id;
                              mr_version := version;
                              mr_metadata := metadata |}))
    [ (Py.only Py.RequestException,
       fun e => Py.Return (Py.Error ("Failed to fetch metadata: " +:+ Py.str e))) ].

(** *** [check_package_vulnerabilities] *)

Record known_vulnerability := {
  kv_id : string;
  kv_severity : string;
  kv_description : string;
  kv_affected_versions : list string;
  kv_fixed_versions : list string
}.

Record vulnerabilities_result := {
  vu_package_id : string;
  vu_version : string;
  vu_vulnerabilities : list known_vulnerability;
  vu_last_checked : string
}.

(** [response] is the outcome of fetching the catalog document of the
    version; the document is decoded and not looked at.  [now] is
    [datetime.utcnow().isoformat()]. *)
Definition check_package_vulnerabilities {D : Type}
    (response : Py.result D) (now : string) (package_id version : string)
  : Py.result (Py.envelope vulnerabilities_result) :=
  Py.try_except
    (data ← response;
     let vulnerabilities :=
       if bool_decide (Str.lower package_id = "newtonsoft.json")
          && bool_decide (version = "9.0.1")
       then [ {| kv_id := "CVE-2023-1234";
                 kv_severity := "high";
                 kv_description :=
                   "Deserialization vulnerability in Newtonsoft.Json 9.0.1";
                 kv_affected_versions := ["9.0.1"];
                 kv_fixed_versions := ["13.0.1"] |} ]
       else [] in
     Py.Return (Py.Success {| vu_package_id := package_id;
                              vu_version := version;
                              vu_vulnerabilities := vulnerabilities;
                              vu_last_checked := now |}))
    [ (Py.only Py.RequestException,
       fun e => Py.Return (Py.Error ("Failed to check vulnerabilities: " +:+ Py.str e))) ].

(** *** [get_latest_compatible_version] *)

(** [max(l, key=key)]: the first element whose key no later key exceeds;
    [gt] is [>] on keys.  An empty argument raises [ValueError]. *)
Fixpoint max_from {A K : Type} (key : A -> Py.result K) (gt : K -> K -> bool)
    (best : A) (best_key : K) (l : list A) : Py.result A :=
  match l with
  | [] => Py.Return best
  | x :: l' =>
      k ← key x;
      if gt k best_key then max_from key gt x k l'
      else max_from key gt best best_key l'
  end.

Definition py_max {A K : Type} (key : A -> Py.result K) (gt : K -> K -> bool)
    (l : list A) : Py.result A :=
  match l with
  | [] => Py.Raise (Py.Exn Py.OtherException "max() arg is an empty sequence")
  | x :: l' => k ← key x; max_from key gt x k l'
  end.

(** The normalisation written out in [_find_compatible_versions]: lower
    case without ['.'] and ['-'], and no prefix added. *)
Definition squash (framework : string) : string :=
  Str.replace "-" "" (Str.replace "." "" (Str.lower framework)).

(** The loop over the groups of one leaf, with its [break]: whether some
    group's squashed name contains the squashed target or is contained in
    it. *)
Definition group_matches (norm_target : string) (group : group_detail) : bool :=
  let api_framework := default "" (gd_targetFramework group) in
  let norm_api_framework := squash api_framework in
  Str.contains norm_target norm_api_framework
  || Str.contains norm_api_framework norm_target.

Definition collect_leaf (norm_target : string)
    (compatible : list (option string)) (version_entry : catalog_detail)
  : list (option string) :=
  if existsb (group_matches norm_target) (cd_dependencyGroups version_entry)
  then compatible ++ [cd_version version_entry]
  else compatible.

(** The list [compatible] when the loops of [_find_compatible_versions]
    end. *)
Definition compatible_at_end (metadata : detailed_index) (target_framework : string)
  : list (option string) :=
  let norm_target := squash target_framework in
  fold_left (fun compatible entry => fold_left (collect_leaf norm_target) entry compatible)
    metadata [].

(** [_find_compatible_versions]: the function builds [compatible] and ends
    without a [return] statement, so the call evaluates to [None]. *)
Definition _find_compatible_versions (metadata : detailed_index)
    (target_framework : string) : option (list (option string)) :=
  let compatible := compatible_at_end metadata target_framework in
  None.

Record latest_result := {
  lr_package_id : string;
  lr_target_framework : string;
  lr_latest_compatible : option string;
  lr_compatible_versions : list (option string)
}.

Section Latest.

Context `{PackagingVersion}.

(** [Version(v)] for a value read with [.get("version")]. *)
Definition Version_of (v : option string) : Py.result version_key :=
  match v with
  | Some s => Version s
  | None => Version_None
  end.

(** [versions_response] is the outcome of [_fetch_all_versions] (the
    ["versions"] list of the flat container), [metadata_response] that of
    [_fetch_metadata]; the second request is made only when the first list
    is not empty. *)
Definition get_latest_compatible_version
    (versions_response : Py.result (list string))
    (metadata_response : Py.result detailed_index)
    (package_id target_framework : string)
  : Py.result (Py.envelope latest_result) :=
  Py.try_except
    (versions ← versions_response;
     match versions with
     | [] => Py.Return (Py.Error "No versions found.")
     | _ :: _ =>
         metadata ← metadata_response;
         match _find_compatible_versions metadata target_framework with
         | None | Some [] => Py.Return (Py.Error "No compatible versions found.")
         | Some ((_ :: _) as compatible_versions) =>
             latest ← py_max Version_of (fun a b => version_lt b a) compatible_versions;
             sorted ← Py.sorted Version_of
                        (fun a b => Py.Return (version_lt a b)) true
                        compatible_versions;
             Py.Return (Py.Success
               {| lr_package_id := package_id;
                  lr_target_framework := target_framework;
                  lr_latest_compatible := latest;
                  lr_compatible_versions := sorted |})
         end
     end)
    [ (Py.Exception, fun e => Py.Return (Py.Error (Py.str e))) ].

End Latest.

(** *** Specification-level counterparts *)

(** The answer's view of one dependency. *)
Definition dependency_info_of (dep : dependency) : dependency_info :=
  {| di_id := dep_id dep; di_version_range := dep_range dep; di_type := "direct" |}.

(** The groups asked for: those of the leaves whose version is [version]
    whose target framework is literally [target_framework]. *)
Definition requested_groups (data : detailed_index) (version target_framework : string)
  : list group_detail :=
  filter (fun g => gd_targetFramework g = Some target_framework)
    (flat_map cd_dependencyGroups
       (filter (fun e => cd_version e = Some version) (concat data))).

(** The first leaf of a page that has the version. *)
Definition first_in_page (version : string) (page : list catalog_detail)
  : option catalog_detail :=
  find (fun e => bool_decide (cd_version e = Some version)) page.

(** The leaf whose metadata is reported: the first one with the version in
    the last page that has one. *)
Definition reported_leaf (data : detailed_index) (version : string)
  : option catalog_detail :=
  last (omap (first_in_page version) data).

(** Descending plain string order on the answers of
    [get_package_versions]. *)
Definition summary_ge (a b : version_summary) : Prop :=
  exists x y, vs_version a = Some x /\ vs_version b = Some y /\ Str.lt x y = false.

End NuGetOperations.

(** ** The search client: the service and the remaining operations

    The Custom Search service is the outside world of [GoogleSearchAPI].
    Its answer to a call may depend on everything asked before, so the
    model threads the list of calls made so far through the operations. *)

Module GoogleSearchOperations.

Import GoogleSearchAPI.

(** One call [service.cse().list(q=..., cx=..., num=...).execute()]; the
    engine id [cx] is fixed when the client is built. *)
Record call := {
  call_q : string;
  call_num : Z
}.

(** One element of ["items"] in the service's answer, with the keys [search]
    reads (each with [.get(key, "")]). *)
Record api_item := {
  item_title : option string;
  item_link : option string;
  item_snippet : option string
}.

(** The service's answer: ["items"] (absent reads as empty) and
    ["searchInformation"]["totalResults"] when present. *)
Record api_response := {
  resp_items : list api_item;
  resp_totalResults : option string
}.

(** The service: what [execute()] produces for a call, given the calls made
    before it. *)
Definition service : Type := list call -> call -> Py.result api_response.

(** A computation that may call the service: from the calls made so far to
    an outcome and the calls made by the end. *)
Definition io (A : Type) : Type := list call -> Py.result A * list call.

#[global] Instance io_ret : MRet io := fun A a log => (Py.Return a, log).
#[global] Instance io_bind : MBind io :=
  fun A B f m log =>
    match m log with
    | (Py.Return a, log') => f a log'
    | (Py.Raise e, log') => (Py.Raise e, log')
    end.

(** A computation that does not call the service. *)
Definition lift {A : Type} (r : Py.result A) : io A := fun log => (r, log).

Definition execute (srv : service) (c : call) : io api_response :=
  fun log => (srv log c, log ++ [c]).

Definition io_clause (A : Type) : Type := (Py.exn_class -> bool) * (Py.exn -> io A).

Fixpoint io_handle {A : Type} (e : Py.exn) (clauses : list (io_clause A)) : io A :=
  match clauses with
  | [] => lift (Py.Raise e)
  | (catches, handler) :: rest =>
      if catches (Py.class_of e) then handler e else io_handle e rest
  end.

(** [try: body  except ...] around a computation that calls the service. *)
Definition io_try_except {A : Type} (body : io A) (clauses : list (io_clause A))
  : io A :=
  fun log =>
    match body log with
    | (Py.Return a, log') => (Py.Return a, log')
    | (Py.Raise e, log') => io_handle e clauses log'
    end.

(** *** [search] *)

(** The fields of a successful answer; [None] for ["total_results"] stands
    for the default [0]. *)
Record search_payload := {
  total_results : option string;
  results : list search_result
}.

(** The loop body of [search]: [search_results.append({...})].  The fourth
    key, ["pagemap"], is copied along and read by no operation; a
    [search_result] does not carry it. *)
Definition add_item (search_results : list search_result) (item : api_item)
  : list search_result :=
  search_results ++
  [ {| title := default "" (item_title item);
       link := default "" (item_link item);
       snippet := default "" (item_snippet item) |} ].

Definition search (srv : service) (query : string) (num_results : Z)
  : io (Py.envelope search_payload) :=
  io_try_except
    (let num_results := Z.min (Z.max 1 num_results) 10 in
     result ← execute srv {| call_q := query; call_num := num_results |};
     let items := resp_items result in
     let search_results := fold_left add_item items [] in
     mret (Py.Success {| total_results := resp_totalResults result;
                         results := search_results |}))
    [ (Py.only Py.HttpError,
       fun e => mret (Py.Error ("Google Search API error: " +:+ Py.str e)));
      (Py.Exception,
       fun e => mret (Py.Error ("Error performing search: " +:+ Py.str e))) ].

(** [answer.get("results", [])] on the answer of [search]. *)
Definition results_of (answer : Py.envelope search_payload) : list search_result :=
  match answer with
  | Py.Success fields => results fields
  | Py.Error _ => []
  end.

(** *** [_extract_compatibility_info] *)

Record compatibility_info := {
  ci_is_compatible : bool;
  ci_evidence : list excerpt;
  ci_recommendations : list excerpt
}.

(** [any(indicator in text for indicator in [...])] *)
Definition indicated (text : string) : bool :=
  existsb (fun indicator => Str.contains indicator text) indicators.

(** ["recommend" in text or "suggest" in text] *)
Definition recommended (text : string) : bool :=
  Str.contains "recommend" text || Str.contains "suggest" text.

(** One iteration of the loop over [results]. *)
Definition check_result (package_name target_framework : string)
    (info : compatibility_info) (result : search_result) : compatibility_info :=
  let text := Str.lower (text_of result) in
  if mentions package_name target_framework text then
    {| ci_is_compatible := if indicated text then true else ci_is_compatible info;
       ci_evidence :=
         if indicated text then ci_evidence info ++ [excerpt_of result]
         else ci_evidence info;
       ci_recommendations :=
         if recommended text then ci_recommendations info ++ [excerpt_of result]
         else ci_recommendations info |}
  else info.

Definition _extract_compatibility_info (results : list search_result)
    (package_name target_framework : string) : compatibility_info :=
  fold_left (check_result package_name target_framework) results
    {| ci_is_compatible := false; ci_evidence := []; ci_recommendations := [] |}.

(** *** [_extract_latest_version] *)

(** [s.split(sep)] for a one-character separator. *)
Fixpoint split (sep : ascii) (s : string) : list string :=
  match s with
  | EmptyString => [EmptyString]
  | String c s' =>
      if Ascii.eqb c sep then EmptyString :: split sep s'
      else match split sep s' with
           | piece :: pieces => String c piece :: pieces
           | [] => [String c EmptyString]
           end
  end.

(** The value of a run of decimal digits read so far as [acc]. *)
Fixpoint decimal (acc : N) (s : string) : N :=
  match s with
  | EmptyString => acc
  | String c s' => decimal (10 * acc + Release.digit_value c)%N s'
  end.

(** [int(s)] on the pieces of a version token, which are runs of ASCII
    digits; an empty piece or another character is a [ValueError].  (The
    signs, blanks and underscores that [int] also reads cannot occur in a
    piece of a match of the pattern.) *)
Definition int (s : string) : Py.result N :=
  if GoogleSearchAPI.number s then Py.Return (decimal 0 s)
  else Py.Raise (Py.Exn Py.OtherException
                   ("invalid literal for int() with base 10: '" +:+ s +:+ "'")).

(** [tuple(map(int, x.split('.')))] *)
Definition int_tuple (x : string) : Py.result (list N) := mapM int (split "." x).

(** [a > b] on tuples of integers. *)
Definition tuple_gt (a b : list N) : bool := Release.lt b a.

(** The order in which Python iterates over a set of strings is not fixed by
    the language; any enumeration of the elements is allowed for. *)
Class SetIteration := {
  iterate : gset string -> list string;
  iterate_perm : forall s, iterate s ≡ₚ elements s
}.

(** One such order, used to run the operations. *)
Definition elements_iteration : SetIteration := {|
  iterate := elements;
  iterate_perm := fun s => Permutation_refl (elements s)
|}.

(** The loop body: [versions.update(re.findall(...))] on the text as it
    is. *)
Definition collect_latest (versions : gset string) (result : search_result)
  : gset string :=
  versions ∪ list_to_set (Re.findall three_component (text_of result)).

Definition _extract_latest_version `{SetIteration}
    (results : list search_result) (package_name : string) : Py.result string :=
  let versions := fold_left collect_latest results ∅ in
  if bool_decide (versions = ∅) then Py.Return "unknown"
  else NuGetOperations.py_max int_tuple tuple_gt (iterate versions).

(** *** [check_package_compatibility] and the Java variants *)

Record compatibility_report := {
  cr_package_name : string;
  cr_current_version : string;
  cr_target_framework : string;
  cr_compatibility : compatibility_info;
  cr_vulnerabilities : vulnerability_info;
  cr_latest_version : string;
  cr_last_checked : string
}.


Section Reports.

Context `{SetIteration}.

(** [now] is [datetime.utcnow().isoformat()] at the end of the call. *)
Definition check_package_compatibility (srv : service) (now : string)
    (package_name current_version target_framework : string)
  : io (Py.envelope compatibility_report) :=
  io_try_except
    (let compatibility_query :=
       package_name +:+ " " +:+ target_framework
         +:+ " compatibility " +:+ current_version in
     compatibility_results ← search srv compatibility_query 5;
     let vulnerability_query :=
       package_name +:+ " " +:+ current_version +:+ " vulnerabilities CVE" in
     vulnerability_results ← search srv vulnerability_query 5;
     let compatibility_info :=
       _extract_compatibility_info (results_of compatibility_results)
         package_name target_framework in
     let vulnerability_info :=
       _extract_vulnerability_info (results_of vulnerability_results)
         package_name current_version in
     let latest_version_query := package_name +:+ " latest version" in
     latest_version_results ← search srv latest_version_query 3;
     latest_version ←
       lift (_extract_latest_version (results_of latest_version_results)
               package_name);
     mret (Py.Success
       {| cr_package_name := package_name;
          cr_current_version := current_version;
          cr_target_framework := target_framework;
          cr_compatibility := compatibility_info;
          cr_vulnerabilities := vulnerability_info;
          cr_latest_version := latest_version;
          cr_last_checked := now |}))
    [ (Py.Exception,
       fun e => mret (Py.Error ("Failed to check compatibility: " +:+ Py.str e))) ].



End Reports.

(** *** Specification-level counterparts *)

(** The result [search] builds from one item. *)
Definition result_of_item (item : api_item) : search_result :=
  {| title := default "" (item_title item);
     link := default "" (item_link item);
     snippet := default "" (item_snippet item) |}.

(** The number of results [search] asks the service for. *)
Definition clamp (num_results : Z) : Z := Z.min (Z.max 1 num_results) 10.

(** A result counts as evidence, respectively as a recommendation. *)
Definition is_evidence (package_name target_framework : string) (r : search_result)
  : bool :=
  mentions package_name target_framework (Str.lower (text_of r))
  && indicated (Str.lower (text_of r)).

Definition is_recommendation (package_name target_framework : string)
    (r : search_result) : bool :=
  mentions package_name target_framework (Str.lower (text_of r))
  && recommended (Str.lower (text_of r)).


(** For a Java artifact: the result's text names the artifact. *)
Definition names_artifact (package_name : string) (r : search_result) : bool :=
  Str.contains (Str.lower package_name) (Str.lower (text_of r)).

(** A result counts as direct evidence for the target runtime, respectively
    as a recommendation, respectively as naming a runtime. *)
Definition java_evidence (package_name target_runtime : string) (r : search_result)
  : bool :=
  names_artifact package_name r
  && (Str.contains (Str.lower target_runtime) (Str.lower (text_of r))
      && indicated (Str.lower (text_of r))).

Definition java_recommendation (package_name : string) (r : search_result) : bool :=
  names_artifact package_name r && recommended (Str.lower (text_of r)).

Definition names_runtime (package_name runtime : string) (r : search_result) : bool :=
  names_artifact package_name r && Str.contains runtime (Str.lower (text_of r)).

(** The runtimes the table lists for a target; none for a target without a
    row. *)
Definition chain_of (target_runtime : string) : list string :=
  default [] (Dict.get (Str.lower target_runtime) JAVA_RUNTIME_COMPATIBILITY).

End GoogleSearchOperations.

(** ** The tool layer, [tools.py]

    The registry tools hand their arguments to the client unchanged; the
    fallback tool combines [search] with [extract_versions]. *)

Module Tools.

Import GoogleSearchAPI GoogleSearchOperations.

Record fallback_fields := {
  fb_package_name : string;
  fb_target_framework : string;
  fb_compatible_versions : list string;
  fb_latest_compatible : string;
  fb_source : string
}.

(** The fallback's answers: its error dictionaries carry a ["source"] key
    beside the message. *)
Inductive fallback_answer :=
| FallbackSuccess (fields : fallback_fields)
| FallbackError (message source : string).

(** [get_compatible_versions_fallback]; [search] is called with its default
    [num_results=5]. *)
Definition get_compatible_versions_fallback (srv : service)
    (package_name target_framework : string) (current_version : option string)
  : io fallback_answer :=
  let search_query :=
    package_name +:+ " compatible with " +:+ target_framework
      +:+ " version compatibility" in
  io_try_except
    (search_result ← search srv search_query 5;
     let not_found :=
       FallbackError
         ("No compatible versions found for " +:+ package_name +:+ " with "
            +:+ target_framework)
         "google_search" in
     match search_result with
     | Py.Success fields =>
         versions ← lift (extract_versions (results fields) package_name target_framework);
         match versions with
         | latest :: _ =>
             mret (FallbackSuccess
               {| fb_package_name := package_name;
                  fb_target_framework := target_framework;
                  fb_compatible_versions := versions;
                  fb_latest_compatible := latest;
                  fb_source := "google_search" |})
         | [] => mret not_found
         end
     | Py.Error _ => mret not_found
     end)
    [ (Py.Exception,
       fun e => mret (FallbackError
                        ("Failed to determine compatibility: " +:+ Py.str e)
                        "google_search")) ].

End Tools.

(** ** Sample registry answers *)

Module Samples.

Import NuGetAPI.

Definition group (framework : string) : dependency_group :=
  {| targetFramework := Some framework |}.

Definition entry (v : string) (frameworks : list string) : catalog_entry :=
  {| version := Some v; published := None; downloads := None;
     dependencyGroups := map group frameworks |}.

(** Two pages; one version string is not a version, one record declares
    nothing the target can use. *)
Definition catalog : registration_index :=
  [ [ entry "9.0.1" ["net45"]; entry "not-a-version" ["net48"] ];
    [ entry "10.0.0" [".NETFramework4.8"; "net48"];
      entry "2.0.0" ["netstandard2.0"];
      entry "9.0.0" ["net20"] ] ].

(** Nothing here is usable from [java11]. *)
Definition unrelated_catalog : registration_index :=
  [ [ entry "1.0.0" ["net45"]; entry "2.0.0" ["netstandard2.0"] ] ].

(** The second leaf has a catalog entry without a ["version"] key. *)
Definition catalog_missing_version : registration_index :=
  [ [ entry "1.0.0" ["net45"];
      {| version := None; published := None; downloads := None;
         dependencyGroups := [] |} ] ].

(** One leaf whose only dependency group spells its framework the long
    way. *)
Definition detailed_catalog : NuGetOperations.detailed_index :=
  [ [ {| NuGetOperations.cd_id := Some "Pkg";
         NuGetOperations.cd_version := Some "1.0.0";
         NuGetOperations.cd_authors := None;
         NuGetOperations.cd_description := None;
         NuGetOperations.cd_projectUrl := None;
         NuGetOperations.cd_licenseUrl := None;
         NuGetOperations.cd_tags := None;
         NuGetOperations.cd_published := None;
         NuGetOperations.cd_downloads := None;
         NuGetOperations.cd_dependencyGroups :=
           [ {| NuGetOperations.gd_targetFramework := Some ".NETFramework4.5";
                NuGetOperations.gd_dependencies :=
                  [ {| NuGetOperations.dep_id := Some "Dep";
                       NuGetOperations.dep_range := Some "[2.0.0, )" |} ] |} ] |} ] ].

(** A search result that advises against the package. *)
Definition negative_result : GoogleSearchAPI.search_result :=
  {| GoogleSearchAPI.title := "Pkg is incompatible with net48";
     GoogleSearchAPI.link := "https://example.org/a";
     GoogleSearchAPI.snippet := "do not use" |}.

(** A search result about an artifact that names one runtime. *)
Definition java8_result : GoogleSearchAPI.search_result :=
  {| GoogleSearchAPI.title := "acme:lib release notes";
     GoogleSearchAPI.link := "https://example.org/b";
     GoogleSearchAPI.snippet := "needs Java8 exactly" |}.

(** A service that is out of quota. *)
Definition failing_service : GoogleSearchOperations.service :=
  fun _ _ => Py.Raise (Py.Exn Py.HttpError "quota exceeded").

End Samples.

(** * Properties *)

(** ** Strings *)

Section StringFacts.

Import Str.

Example lower_example : lower "NetStandard2.0" = "netstandard2.0".
Proof. reflexivity. Qed.

Lemma lower_ascii_idem c : lower_ascii (lower_ascii c) = lower_ascii c.
Proof. destruct c as [[] [] [] [] [] [] [] []]; reflexivity. Qed.

Lemma lower_ascii_dot c : lower_ascii c = "."%char -> c = "."%char.
Proof. destruct c as [[] [] [] [] [] [] [] []]; vm_compute; congruence. Qed.

Lemma lower_ascii_dash c : lower_ascii c = "-"%char -> c = "-"%char.
Proof. destruct c as [[] [] [] [] [] [] [] []]; vm_compute; congruence. Qed.

Lemma lower_ascii_digit c : is_digit c = true -> lower_ascii c = c.
Proof. destruct c as [[] [] [] [] [] [] [] []]; vm_compute; congruence. Qed.

Lemma str_app_nil_l s : "" +:+ s = s.
Proof. reflexivity. Qed.

Lemma str_app_cons c s t : String c s +:+ t = String c (s +:+ t).
Proof. reflexivity. Qed.

Lemma str_all_app p s t : all p (s +:+ t) = all p s && all p t.
Proof.
  induction s as [|c s IH]; [reflexivity|].
  rewrite str_app_cons. cbn. rewrite IH. apply andb_assoc.
Qed.

Lemma all_impl (p q : ascii -> bool) s :
  (forall c, p c = true -> q c = true) -> all p s = true -> all q s = true.
Proof.
  intros Hpq. induction s as [|c s IH]; cbn; [reflexivity|].
  intros [Hc Hs]%andb_true_iff. rewrite (Hpq _ Hc). cbn. auto.
Qed.

Lemma str_app_nil_r s : s +:+ "" = s.
Proof.
  induction s as [|c s IH]; [reflexivity|]. now rewrite str_app_cons, IH.
Qed.

Lemma str_app_assoc s t u : (s +:+ t) +:+ u = s +:+ t +:+ u.
Proof.
  induction s as [|c s IH]; [reflexivity|]. now rewrite !str_app_cons, IH.
Qed.

Lemma str_length_app s t :
  String.length (s +:+ t) = (String.length s + String.length t)%nat.
Proof.
  induction s as [|c s IH]; [reflexivity|].
  rewrite str_app_cons. cbn. now rewrite IH.
Qed.

Lemma lower_canonical s : all canonical_char s = true -> lower s = s.
Proof.
  induction s as [|c s IH]; cbn; [reflexivity|].
  intros [Hc Hs]%andb_true_iff. unfold canonical_char in Hc.
  apply andb_true_iff in Hc as [[Hc _]%andb_true_iff _].
  apply Ascii.eqb_eq in Hc. rewrite Hc, IH; auto.
Qed.

Lemma replace_absent old s :
  all (fun c => negb (Ascii.eqb c old)) s = true -> replace old "" s = s.
Proof.
  induction s as [|c s IH]; cbn; [reflexivity|].
  intros [Hc Hs]%andb_true_iff.
  apply negb_true_iff in Hc. rewrite Hc, IH; auto.
Qed.

Lemma replace_cons old c s :
  replace old "" (String c s) =
  if Ascii.eqb c old then replace old "" s else String c (replace old "" s).
Proof. reflexivity. Qed.

Lemma all_replace p old s :
  all p s = true -> all p (replace old "" s) = true.
Proof.
  induction s as [|c s IH]; [reflexivity|]. rewrite replace_cons. cbn.
  intros [Hc Hs]%andb_true_iff.
  destruct (Ascii.eqb c old); cbn; [auto|]. rewrite Hc. cbn. auto.
Qed.

Lemma replace_removes old s :
  all (fun c => negb (Ascii.eqb c old)) (replace old "" s) = true.
Proof.
  induction s as [|c s IH]; [reflexivity|]. rewrite replace_cons.
  destruct (Ascii.eqb c old) eqn:E; cbn; [exact IH|].
  rewrite E. cbn. exact IH.
Qed.

Lemma lower_is_lower s :
  all (fun c => Ascii.eqb (lower_ascii c) c) (lower s) = true.
Proof.
  induction s as [|c s IH]; cbn; [reflexivity|].
  rewrite lower_ascii_idem, Ascii.eqb_refl. exact IH.
Qed.

Lemma all_and p q s :
  all p s = true -> all q s = true -> all (fun c => p c && q c) s = true.
Proof.
  induction s as [|c s IH]; cbn; [reflexivity|].
  intros [Hp Hps]%andb_true_iff [Hq Hqs]%andb_true_iff.
  rewrite Hp, Hq. cbn. auto.
Qed.

(** What the first line of [_normalize_framework] produces is canonical. *)
Lemma stripped_canonical s :
  all canonical_char (replace "-" "" (replace "." "" (lower s))) = true.
Proof.
  set (t := replace "-" "" (replace "." "" (lower s))).
  assert (H1 : all (fun c => Ascii.eqb (lower_ascii c) c) t = true)
    by (unfold t; do 2 apply all_replace; apply lower_is_lower).
  assert (H2 : all (fun c => negb (Ascii.eqb c ".")) t = true)
    by (unfold t; apply all_replace, replace_removes).
  assert (H3 : all (fun c => negb (Ascii.eqb c "-")) t = true)
    by (unfold t; apply replace_removes).
  pose proof (all_and _ _ _ (all_and _ _ _ H1 H2) H3) as H.
  exact H.
Qed.

Lemma canonical_fixed s :
  all canonical_char s = true ->
  replace "-" "" (replace "." "" (lower s)) = s.
Proof.
  intros H. rewrite (lower_canonical _ H).
  rewrite (replace_absent "." s).
  - apply replace_absent. revert H. apply all_impl.
    unfold canonical_char. intros c [_ Hc]%andb_true_iff. exact Hc.
  - revert H. apply all_impl.
    unfold canonical_char. intros c [[_ Hc]%andb_true_iff _]%andb_true_iff.
    exact Hc.
Qed.

Lemma contains_char_absent x s :
  all (fun c => negb (Ascii.eqb c x)) s = true ->
  contains (String x "") s = false.
Proof.
  induction s as [|c s IH]; [reflexivity|]. cbn.
  intros [Hc Hs]%andb_true_iff. apply negb_true_iff, Ascii.eqb_neq in Hc.
  destruct (ascii_dec x c); [congruence|]. cbn. auto.
Qed.

Lemma prefix_app p s : String.prefix p (p +:+ s) = true.
Proof.
  induction p as [|c p IH]; [now destruct s|].
  rewrite str_app_cons. cbn.
  destruct (ascii_dec c c); [exact IH|congruence].
Qed.

End StringFacts.

(** ** Identifier normalisation *)

Section Normalizer.

Import Str NuGetAPI.

Example normalize_examples :
  _normalize_framework "NetStandard2.0" = "netstandard20"
  /\ _normalize_framework ".NET-4.8" = "net48"
  /\ _normalize_framework "4.5" = "net45"
  /\ _normalize_framework "" = "net".
Proof. repeat split. Qed.

Lemma normalize_canonical s :
  all canonical_char (_normalize_framework s) = true.
Proof.
  unfold _normalize_framework.
  set (t := replace "-" "" (replace "." "" (lower s))).
  destruct (startswith t "net"); [apply stripped_canonical|].
  rewrite str_all_app. unfold t. rewrite stripped_canonical. reflexivity.
Qed.

Lemma normalize_startswith_net s :
  startswith (_normalize_framework s) "net" = true.
Proof.
  unfold _normalize_framework.
  set (t := replace "-" "" (replace "." "" (lower s))).
  destruct (startswith t "net") eqn:E; [exact E|].
  unfold startswith. apply prefix_app.
Qed.

Lemma normalize_fixed s :
  _normalize_framework (_normalize_framework s) = _normalize_framework s.
Proof.
  unfold _normalize_framework at 1.
  rewrite (canonical_fixed _ (normalize_canonical s)).
  now rewrite normalize_startswith_net.
Qed.

(** C9. The framework-identifier normaliser is a total function on strings
    and is idempotent: normalising an already normalised identifier changes
    nothing.  Its output is lower case, free of ['.'] and ['-'], and starts
    with ["net"], which is what the three steps of the function establish. *)
Theorem normalize_framework_idempotent (s : string) :
  _normalize_framework (_normalize_framework s) = _normalize_framework s
  /\ startswith (_normalize_framework s) "net" = true
  /\ lower (_normalize_framework s) = _normalize_framework s
  /\ contains "." (_normalize_framework s) = false
  /\ contains "-" (_normalize_framework s) = false.
Proof.
  pose proof (normalize_canonical s) as Hc.
  pose proof (normalize_startswith_net s) as Hn.
  split; [|split; [exact Hn|split; [exact (lower_canonical _ Hc)|]]].
  - apply normalize_fixed.
  - split; apply contains_char_absent; revert Hc; apply all_impl;
      unfold canonical_char; intros c H;
      apply andb_true_iff in H as [[_ H1]%andb_true_iff H2]; assumption.
Qed.

End Normalizer.

(** ** The compatibility table *)

Section DictFacts.

Context {V : Type}.

Lemma dict_get_elem (k : string) (v : V) d :
  Dict.get k d = Some v -> (k, v) ∈ d.
Proof.
  induction d as [|[k' v'] d IH]; cbn; [discriminate|].
  destruct (String.eqb_spec k k') as [->|Hne].
  - intros [= ->]. left.
  - intros H. right. auto.
Qed.

Lemma dict_elem_get (k : string) (v : V) d :
  NoDup (Dict.keys d) -> (k, v) ∈ d -> Dict.get k d = Some v.
Proof.
  induction d as [|[k' v'] d IH]; cbn; intros Hnd Hin.
  - inversion Hin.
  - apply NoDup_cons in Hnd as [Hk' Hnd].
    apply elem_of_cons in Hin as [[= -> ->]|Hin].
    + now rewrite String.eqb_refl.
    + destruct (String.eqb_spec k k') as [->|Hne]; [|auto].
      exfalso. apply Hk'. apply list_elem_of_fmap. exists (k', v). auto.
Qed.

End DictFacts.

Section CompatibilityGraph.

Import NuGetAPI.

Example is_compatible_examples :
  _is_framework_compatible "net48" {[ "net48" ]} = true
  /\ _is_framework_compatible "net45" {[ "net48" ]} = true
  /\ _is_framework_compatible "net48" {[ "net20" ]} = true
  /\ _is_framework_compatible "net48" {[ "netstandard20" ]} = false
  /\ _is_framework_compatible "java11" {[ "net48" ]} = false.
Proof. vm_compute. repeat split. Qed.

Lemma framework_keys_nodup : NoDup (Dict.keys FRAMEWORK_COMPATIBILITY).
Proof. apply (bool_decide_unpack _). vm_compute. exact I. Qed.

Lemma any_supported_iff supported l :
  any_supported supported l = true <-> exists f, f ∈ l /\ f ∈ supported.
Proof.
  unfold any_supported. rewrite existsb_exists. split.
  - intros (f & Hin & Hf). exists f. split.
    + now apply list_elem_of_In.
    + now apply bool_decide_eq_true in Hf.
  - intros (f & Hin & Hf). exists f. split.
    + now apply list_elem_of_In.
    + now apply bool_decide_eq_true.
Qed.

Lemma mapping_loop_iff target supported items :
  mapping_loop target supported items = true <->
  exists k l, (k, l) ∈ items /\ target ∈ l
              /\ exists f, f ∈ l /\ f ∈ supported.
Proof.
  induction items as [|[k l] items IH]; cbn.
  - split; [discriminate|]. intros (k & l & Hin & _). inversion Hin.
  - destruct (bool_decide (target ∈ l) && any_supported supported l) eqn:E.
    + split; [intros _|reflexivity].
      apply andb_true_iff in E as [Ht Hs].
      apply bool_decide_eq_true in Ht. apply any_supported_iff in Hs.
      exists k, l. split; [left|auto].
    + rewrite IH. split.
      * intros (k' & l' & Hin & H). exists k', l'. split; [now right|auto].
      * intros (k' & l' & Hin & Ht & Hs).
        apply elem_of_cons in Hin as [[= -> ->]|Hin].
        -- exfalso. apply andb_false_iff in E as [E|E].
           ++ apply bool_decide_eq_false in E. auto.
           ++ apply any_supported_iff in Hs. congruence.
        -- exists k', l'. auto.
Qed.

(** C2. The compatibility check answers true exactly when the normalised
    target is itself a member of the supported set (direct match), or some
    key [k] of the static table has a list that contains the normalised
    target and at least one member of the supported set; in every other
    case it answers false. *)
Theorem is_framework_compatible_iff (target : string) (supported : gset string) :
  _is_framework_compatible target supported = true <->
  (_normalize_framework target ∈ supported
   \/ exists k l,
       Dict.get k FRAMEWORK_COMPATIBILITY = Some l
       /\ _normalize_framework target ∈ l
       /\ exists f, f ∈ l /\ f ∈ supported).
Proof.
  unfold _is_framework_compatible.
  destruct (bool_decide (_normalize_framework target ∈ supported)) eqn:E.
  - apply bool_decide_eq_true in E. split; [intros _; now left|reflexivity].
  - apply bool_decide_eq_false in E. rewrite mapping_loop_iff. split.
    + intros (k & l & Hin & H). right. exists k, l. split; [|exact H].
      apply dict_elem_get; [apply framework_keys_nodup|exact Hin].
    + intros [Hd|(k & l & Hget & H)]; [contradiction|].
      exists k, l. split; [|exact H]. now apply dict_get_elem.
Qed.

End CompatibilityGraph.

(** ** Results and sorting *)

Section ResultFacts.

Import Py.

Lemma bind_Return {A B : Type} (a : A) (f : A -> result B) :
  (Return a ≫= f) = f a.
Proof. reflexivity. Qed.

Lemma bind_Raise {A B : Type} (e : exn) (f : A -> result B) :
  (Raise e ≫= f) = Raise e.
Proof. reflexivity. Qed.

Lemma mapM_Return {A B : Type} (f : A -> result B) l ks :
  Forall2 (fun x k => f x = Return k) l ks -> mapM f l = Return ks.
Proof.
  induction 1 as [|x k l ks Hx _ IH]; [reflexivity|].
  cbn. rewrite Hx, bind_Return.
  change (fix go (l : list A) : result (list B) :=
            match l with
            | [] => mret []
            | x :: l0 => f x ≫= λ y, go l0 ≫= λ k, mret (y :: k)
            end) with (mapM f).
  rewrite IH. reflexivity.
Qed.

End ResultFacts.

Section SortFacts.

Import Py.

Context {A K : Type} (ltb : K -> K -> bool).

Local Abbreviation lt := (fun a b : K => Return (ltb a b)).

Lemma insert_reverse_perm (x : K * A) l :
  exists r, insert lt true x l = Return r /\ r ≡ₚ x :: l.
Proof.
  induction l as [|y l (r & Hr & Hp)]; cbn.
  - eexists; split; [reflexivity|done].
  - destruct (ltb x.1 y.1).
    + rewrite Hr, bind_Return. eexists; split; [reflexivity|].
      rewrite Hp. apply perm_swap.
    + eexists; split; [reflexivity|done].
Qed.

Lemma sort_decorated_perm (l : list (K * A)) :
  exists r, sort_decorated lt true l = Return r /\ r ≡ₚ l.
Proof.
  induction l as [|x l (s & Hs & Hp)]; cbn.
  - eexists; split; [reflexivity|done].
  - rewrite Hs, bind_Return.
    destruct (insert_reverse_perm x s) as (r & Hr & Hpr).
    exists r. split; [exact Hr|]. rewrite Hpr. now constructor.
Qed.

Section Ordered.

Hypothesis ltb_asym : forall a b, ltb a b = true -> ltb b a = false.
Hypothesis ltb_negtrans :
  forall a b c, ltb a b = false -> ltb b c = false -> ltb a c = false.

Lemma insert_reverse_sorted (x : K * A) l r :
  StronglySorted (key_ge ltb) l -> insert lt true x l = Return r ->
  StronglySorted (key_ge ltb) r.
Proof.
  revert r. induction l as [|y l IH]; cbn; intros r Hs Hr.
  - injection Hr as <-. repeat constructor.
  - apply StronglySorted_inv in Hs as [Hs Hy].
    destruct (ltb x.1 y.1) eqn:E.
    + destruct (insert_reverse_perm x l) as (r' & Hr' & Hp).
      rewrite Hr', bind_Return in Hr. injection Hr as <-.
      constructor; [now apply IH|].
      rewrite Hp. constructor; [|exact Hy].
      unfold key_ge. now apply ltb_asym.
    + injection Hr as <-. constructor; [now constructor|].
      constructor; [exact E|].
      eapply Forall_impl; [exact Hy|].
      intros z Hz. unfold key_ge in *. eauto.
Qed.

Lemma sort_decorated_sorted (l r : list (K * A)) :
  sort_decorated lt true l = Return r -> StronglySorted (key_ge ltb) r.
Proof.
  revert r. induction l as [|x l IH]; cbn; intros r Hr.
  - injection Hr as <-. constructor.
  - destruct (sort_decorated_perm l) as (s & Hs & _).
    rewrite Hs, bind_Return in Hr.
    eapply insert_reverse_sorted; [|exact Hr]. now apply IH.
Qed.

End Ordered.

Context (key : A -> result K).

(** When every key is defined, [sorted(l, key=key, reverse=True)] returns a
    rearrangement of [l]; when [<] on keys is asymmetric and negatively
    transitive, it is in descending order of keys. *)
Lemma sorted_reverse_spec (l : list A) (ks : list K) :
  Forall2 (fun x k => key x = Return k) l ks ->
  exists r, sorted key lt true l = Return r
            /\ r ≡ₚ l
            /\ ((forall a b, ltb a b = true -> ltb b a = false) ->
                (forall a b c, ltb a b = false -> ltb b c = false -> ltb a c = false) ->
                StronglySorted (by_key_ge ltb key) r).
Proof.
  intros Hk. unfold sorted.
  rewrite (mapM_Return _ _ _ Hk), bind_Return.
  destruct (sort_decorated_perm (zip ks l)) as (s & Hs & Hp).
  rewrite Hs, bind_Return. eexists; split; [reflexivity|].
  assert (Hlen : length l = length ks) by (eapply Forall2_length; eauto).
  split.
  - rewrite Hp. change (map snd (zip ks l)) with ((zip ks l).*2).
    rewrite snd_zip; [done|lia].
  - intros Ha Hn.
    pose proof (sort_decorated_sorted Ha Hn _ _ Hs) as Hss.
    assert (Hkeys : Forall (fun p => key (snd p) = Return (fst p)) s).
    { rewrite Hp. clear -Hk. induction Hk; cbn; constructor; auto. }
    clear -Hss Hkeys. induction Hss as [|p s Hs IH Hp]; cbn; constructor.
    + apply IH. now inversion Hkeys.
    + apply Forall_forall. intros b Hb.
      apply list_elem_of_In, in_map_iff in Hb as (q & <- & Hq%list_elem_of_In).
      rewrite Forall_forall in Hp. specialize (Hp q Hq).
      inversion Hkeys as [|? ? Hpk Hsk]; subst.
      rewrite Forall_forall in Hsk. specialize (Hsk q Hq).
      exists (fst p), (fst q). auto.
Qed.

End SortFacts.

(** ** The registry resolver *)

Section SupportedFrameworks.

Import NuGetAPI.




Lemma elem_of_declared_frameworks x gs :
  x ∈ declared_frameworks gs <->
  exists g f, g ∈ gs /\ targetFramework g = Some f /\ f <> ""
              /\ x = _normalize_framework f.
Proof.
  unfold declared_frameworks. rewrite elem_of_list_to_set. split.
  - intros Hx. apply list_elem_of_In, in_map_iff in Hx as (f & <- & Hf).
    apply list_elem_of_In, list_elem_of_filter in Hf as [Hne Hf].
    apply list_elem_of_omap in Hf as (g & Hg & Hgf). eauto 8.
  - intros (g & f & Hg & Hgf & Hne & ->).
    apply list_elem_of_In, in_map. apply list_elem_of_In, list_elem_of_filter.
    split; [exact Hne|]. apply list_elem_of_omap. eauto.
Qed.

End SupportedFrameworks.

Section ResolverFacts.

Import Py NuGetAPI.

Context `{PackagingVersion}.







Lemma StronglySorted_impl {A : Type} (R S : A -> A -> Prop) l :
  (forall a b, R a b -> S a b) -> StronglySorted R l -> StronglySorted S l.
Proof.
  intros HRS. induction 1 as [|a l _ IH Ha]; constructor; [exact IH|].
  eapply Forall_impl; [exact Ha|]. auto.
Qed.



(** The resolver never lets an exception through: both handlers return an
    envelope, and the second names [Exception]. *)
Lemma get_compatible_versions_returns
    (response : result registration_index)
    (package_id target : string) (current_version : option string) :
  exists r, get_compatible_versions response package_id target current_version
            = Return r.
Proof.
  unfold get_compatible_versions.
  match goal with |- exists r, try_except ?b _ = _ => destruct b as [r|e] end.
  - exists r. reflexivity.
  - cbn. destruct (class_of e); eauto.
Qed.

End ResolverFacts.

Section ReleaseFacts.

Import Release.

Example parse_examples :
  parse "10.0.0" = Some [10%N] /\ parse "9.0.1" = Some [9; 0; 1]%N
  /\ parse "2.3" = Some [2; 3]%N /\ parse "not-a-version" = None
  /\ parse "1..2" = None /\ parse "" = None.
Proof. repeat split. Qed.

Lemma release_lt_asym a b : lt a b = true -> lt b a = false.
Proof.
  revert b. induction a as [|x a IH]; intros [|y b]; cbn; try congruence.
  destruct (N.ltb_spec x y), (N.ltb_spec y x); try congruence; try lia.
  apply IH.
Qed.

Lemma release_lt_negtrans a b c : lt a b = false -> lt b c = false -> lt a c = false.
Proof.
  revert b c.
  induction a as [|x a IH]; intros [|y b] [|z c]; cbn; try congruence.
  destruct (N.ltb_spec x y), (N.ltb_spec y x), (N.ltb_spec y z),
    (N.ltb_spec z y), (N.ltb_spec x z), (N.ltb_spec z x);
    try congruence; try lia.
  apply IH.
Qed.

#[global] Instance laws : NuGetAPI.PackagingVersionLaws.
Proof. split; [exact release_lt_asym|exact release_lt_negtrans]. Qed.

End ReleaseFacts.

Section ResolverClaims.

Import Py NuGetAPI.

Context `{PackagingVersion}.

(** The spec's end-to-end scenario on the fixed table: from [net48] the
    record declaring [net45] qualifies, the one declaring
    [netstandard2.0] does not. *)
Example resolver_example :
  @get_compatible_versions Release.packaging
    (Return Samples.unrelated_catalog) "pkg" "net48" None =
  Return (Success
    {| cv_package_id := "pkg"; cv_target_framework := "net48";
       compatible_versions := ["1.0.0"];
       latest_compatible := Some "1.0.0";
       version_details :=
         [ {| vi_version := "1.0.0"; vi_published := None; vi_downloads := 0;
              vi_supported_frameworks := {[ "net45" ]} |} ] |}).
Proof. vm_compute. reflexivity. Qed.




End ResolverClaims.

Section ResolverRuns.

Import Py NuGetAPI.


Lemma unrelated_versions_present : versions_present Samples.unrelated_catalog.
Proof. unfold versions_present. cbn. repeat constructor; eexists; reflexivity. Defined.

Example sample_run :
  get_compatible_versions (Return Samples.catalog) "Some.Package" "NET-4.8" None =
  Return (Success
    {| cv_package_id := "Some.Package"; cv_target_framework := "net48";
       compatible_versions := ["10.0.0"; "9.0.1"; "9.0.0"];
       latest_compatible := Some "10.0.0";
       version_details :=
         [ {| vi_version := "10.0.0"; vi_published := None; vi_downloads := 0;
              vi_supported_frameworks := {[ "netframework48"; "net48" ]} |};
           {| vi_version := "9.0.1"; vi_published := None; vi_downloads := 0;
              vi_supported_frameworks := {[ "net45" ]} |};
           {| vi_version := "9.0.0"; vi_published := None; vi_downloads := 0;
              vi_supported_frameworks := {[ "net20" ]} |} ] |}).
Proof. vm_compute. reflexivity. Qed.





(** A record without a version string is not skipped: [Version(None)]
    raises [TypeError], which only the last handler catches. *)
Example missing_version_is_an_error :
  get_compatible_versions (Return Samples.catalog_missing_version) "pkg" "net48" None =
  Return (Error "Unexpected error: expected string or bytes-like object").
Proof. vm_compute. reflexivity. Qed.

(** A transport failure gives the error envelope. *)
Example transport_failure :
  get_compatible_versions (Raise (Exn RequestException "500 Server Error"))
    "pkg" "net48" None =
  Return (Error "Failed to fetch compatible versions: 500 Server Error").
Proof. vm_compute. reflexivity. Qed.

Example get_package_versions_run :
  get_package_versions (Return Samples.unrelated_catalog) "pkg" =
  Return (Success
    {| vr_package_id := "pkg";
       vr_versions :=
         [ {| vs_version := Some "2.0.0"; vs_published := None; vs_downloads := 0 |};
           {| vs_version := Some "1.0.0"; vs_published := None; vs_downloads := 0 |} ] |}).
Proof. vm_compute. reflexivity. Qed.

(** C3. Every public operation is meant to return the uniform envelope and
    never to let a raw exception reach the caller.  [get_package_versions]
    does not: its only handler names [RequestException], so on a catalog in
    which one entry lacks its version the [TypeError] raised while sorting
    leaves the function; a transport failure is still converted. *)
Theorem get_package_versions_propagates :
  get_package_versions (Return Samples.catalog_missing_version) "pkg" =
  Raise (Exn TypeError "'<' not supported between instances of 'str' and 'NoneType'")
  /\ get_package_versions (Raise (Exn RequestException "500 Server Error")) "pkg" =
     Return (Error "Failed to fetch versions: 500 Server Error").
Proof. split; vm_compute; reflexivity. Qed.

End ResolverRuns.

(** ** The miner's patterns on examples *)

Section MinerExamples.

Import Py Re GoogleSearchAPI.

Example findall_three : findall three_component "v1.2.3 and 10.20.30.40, 7.8" = ["1.2.3"; "10.20.30"].
Proof. vm_compute. reflexivity. Qed.

Example findall_two : findall two_component "v1.2.3 and 10.20.30.40, 7.8 1.23.4" = ["2.3"; "10.2"; "0.3"; "0.40"; "7.8"; "1.2"; "3.4"].
Proof. vm_compute. reflexivity. Qed.

Example findall_cve :
  findall cve_pattern "... CVE-2023-1234 and CVE-2021-44228 affect this package, CVE-2020-123456789 cve-2020-1234 CVE-20-1234"
  = ["CVE-2023-1234"; "CVE-2021-44228"; "CVE-2020-1234567"].
Proof. vm_compute. reflexivity. Qed.

Example extract_versions_example :
  extract_versions
    [ {| title := "Pkg 9.0.1 and 10.0.0"; link := "l"; snippet := "works on NET48" |};
      {| title := "Other 5.5.5"; link := "l"; snippet := "net48" |} ]
    "pkg" "net48"
  = Return ["9.0.1"; "10.0.0"; "0.1"; "0.0"].
Proof. vm_compute. reflexivity. Qed.

End MinerExamples.

(** ** The matcher *)

Section MatcherFacts.

Import Str Re.

Lemma digits_stop k lo s :
  digit_ahead s = false ->
  digits k lo None s = match lo with 0 => k s | S _ => None end.
Proof. destruct s as [|c s]; cbn; [reflexivity|]. now intros ->. Qed.

(** Greedy success: when the continuation accepts what follows the whole
    run of digits, the repetition takes the whole run. *)
Lemma digits_greedy k lo d rest m :
  all is_digit d = true -> digit_ahead rest = false ->
  lo <= String.length d -> k rest = Some m ->
  digits k lo None (d +:+ rest) = Some (d +:+ m).
Proof.
  revert lo. induction d as [|c d IH]; intros lo Hd Hrest Hlo Hk.
  - rewrite !str_app_nil_l, digits_stop by exact Hrest.
    cbn in Hlo. now replace lo with 0 by lia.
  - cbn in Hd. apply andb_true_iff in Hd as [Hc Hd].
    rewrite !str_app_cons. cbn [digits]. rewrite Hc. cbn [andb may_take fmap option_fmap option_map].
    rewrite (IH (pred lo)); [reflexivity|assumption..| |assumption].
    cbn in Hlo. lia.
Qed.

(** No way back: when the continuation refuses what follows the run and
    refuses every text that starts with a digit, the repetition fails. *)
Lemma digits_fail k lo d rest :
  all is_digit d = true -> digit_ahead rest = false ->
  (forall t, digit_ahead t = true -> k t = None) -> k rest = None ->
  digits k lo None (d +:+ rest) = None.
Proof.
  intros Hd Hrest Hrej Hk. revert lo.
  induction d as [|c d IH]; intros lo.
  - rewrite str_app_nil_l, digits_stop by exact Hrest. now destruct lo.
  - cbn in Hd. apply andb_true_iff in Hd as [Hc Hd].
    rewrite str_app_cons. cbn [digits]. rewrite Hc. cbn [andb may_take fmap option_fmap option_map].
    rewrite (IH Hd). destruct lo; [|reflexivity].
    apply Hrej. exact Hc.
Qed.

(** One step back: when the continuation refuses what follows the run but
    accepts the text from the last digit on, the repetition gives that
    digit back. *)
Lemma digits_give_back k lo d c rest m :
  all is_digit d = true -> is_digit c = true -> digit_ahead rest = false ->
  lo <= String.length d -> k rest = None -> k (String c rest) = Some m ->
  digits k lo None (d +:+ String c rest) = Some (d +:+ m).
Proof.
  intros Hd Hc Hrest Hlo Hk Hkc. revert lo Hlo.
  induction d as [|a d IH]; intros lo Hlo.
  - rewrite !str_app_nil_l. cbn [digits]. rewrite Hc. cbn [andb may_take fmap option_fmap option_map].
    rewrite digits_stop by exact Hrest. cbn in Hlo.
    replace lo with 0 by lia. cbn. now rewrite Hk.
  - cbn in Hd. apply andb_true_iff in Hd as [Ha Hd].
    rewrite !str_app_cons. cbn [digits]. rewrite Ha. cbn [andb may_take fmap option_fmap option_map].
    rewrite (IH Hd (pred lo)); [reflexivity|]. cbn in Hlo. lia.
Qed.

(** What a match is made of. *)
Lemma digits_shape (q : ascii -> bool) k lo hi s m :
  (forall c, is_digit c = true -> q c = true) ->
  (forall t n, k t = Some n -> all q n = true /\ exists u, t = n +:+ u) ->
  digits k lo hi s = Some m ->
  all q m = true /\ exists u, s = m +:+ u.
Proof.
  intros Hq Hk. revert lo hi m.
  induction s as [|c s IH]; intros lo hi m; cbn [digits].
  - destruct lo; [apply Hk|discriminate].
  - destruct (is_digit c && may_take hi) eqn:E.
    + destruct (digits k (pred lo) (pred <$> hi) s) as [m'|] eqn:E'.
      * intros [= <-]. apply IH in E' as [Hm' [u ->]].
        apply andb_true_iff in E as [Hc _]. cbn. rewrite (Hq _ Hc), Hm'.
        split; [reflexivity|]. exists u. reflexivity.
      * destruct lo; [apply Hk|discriminate].
    + destruct lo; [apply Hk|discriminate].
Qed.

Lemma match_here_shape (q : ascii -> bool) p s m :
  (forall c, is_digit c = true -> q c = true) ->
  literals_in q p = true ->
  match_here p s = Some m ->
  all q m = true /\ exists u, s = m +:+ u.
Proof.
  intros Hq. revert s m. induction p as [|i p IH]; intros s m Hp.
  - intros [= <-]. split; [reflexivity|]. exists s. reflexivity.
  - cbn in Hp. apply andb_true_iff in Hp as [Hi Hp].
    destruct i as [c|lo hi|c]; cbn [match_here].
    + destruct s as [|c' s]; [discriminate|].
      destruct (Ascii.eqb_spec c c') as [<-|]; [|discriminate].
      destruct (match_here p s) as [m'|] eqn:E; [|discriminate].
      intros [= <-]. apply IH in E as [Hm' [u ->]]; [|exact Hp].
      cbn. rewrite Hi, Hm'. split; [reflexivity|]. exists u. reflexivity.
    + apply digits_shape; [exact Hq|]. intros t n. now apply IH.
    + destruct s as [|c' s]; [now apply IH|].
      destruct (Ascii.eqb c c'); [discriminate|]. now apply IH.
Qed.

(** A pattern that begins with [\d+] matches at least one character. *)
Lemma match_here_nonempty lo hi p s m :
  match_here (Digits (S lo) hi :: p) s = Some m -> m <> "".
Proof.
  cbn [match_here]. destruct s as [|c s]; cbn [digits]; [discriminate|].
  destruct (is_digit c && may_take hi); [|discriminate].
  destruct (digits _ _ _ s); [|discriminate]. intros [= <-]. discriminate.
Qed.

(** The scan leaves the characters of a match behind. *)
Lemma scan_skip p a rest :
  scan p (String.length a) (a +:+ rest) = scan p 0 rest.
Proof.
  induction a as [|c a IH]; [reflexivity|]. rewrite str_app_cons. exact IH.
Qed.

Lemma scan_match p m rest :
  m <> "" -> match_here p (m +:+ rest) = Some m ->
  scan p 0 (m +:+ rest) = m :: scan p 0 rest.
Proof.
  destruct m as [|c m]; [congruence|]. intros _ Hm.
  rewrite str_app_cons in *. cbn [scan]. rewrite Hm. cbn [String.length pred].
  now rewrite scan_skip.
Qed.

Lemma scan_no_match p c s :
  match_here p (String c s) = None -> scan p 0 (String c s) = scan p 0 s.
Proof. intros Hm. cbn [scan]. now rewrite Hm. Qed.

End MatcherFacts.

(** ** The Java runtime chain *)

Section RuntimeChain.

Import Py GoogleSearchAPI.

Example chain_examples :
  is_compatible_chain "Java21" {[ "java11"; "java17" ]} = true
  /\ is_compatible_chain "java11" {[ "java11" ]} = false
  /\ is_compatible_chain "java8" {[ "java8" ]} = true
  /\ is_compatible_chain "java9" {[ "java8" ]} = false.
Proof. vm_compute. repeat split. Qed.

(** C8. The runtime chain check is not symmetric: from [java17] a package
    supporting [java8] passes, from [java8] a package supporting [java17]
    does not.  In general the check succeeds exactly when some element of
    the supported set occurs in the table's list for the lower-cased
    target; a target without a row has the empty chain and never passes. *)
Theorem is_compatible_chain_asymmetric :
  is_compatible_chain "java17" {[ "java8" ]} = true
  /\ is_compatible_chain "java8" {[ "java17" ]} = false
  /\ (forall (t : string) (S : gset string),
        is_compatible_chain t S = true <->
        exists r, r ∈ S
                  /\ r ∈ default [] (Dict.get (Str.lower t) JAVA_RUNTIME_COMPATIBILITY))
  /\ (forall (t : string) (S : gset string),
        Dict.get (Str.lower t) JAVA_RUNTIME_COMPATIBILITY = None ->
        is_compatible_chain t S = false).
Proof.
  assert (Hiff : forall (t : string) (S : gset string),
            is_compatible_chain t S = true <->
            exists r, r ∈ S
              /\ r ∈ default [] (Dict.get (Str.lower t) JAVA_RUNTIME_COMPATIBILITY)).
  { intros t S. unfold is_compatible_chain. rewrite existsb_exists. split.
    - intros (r & Hr & Hin). exists r. split.
      + now apply elem_of_elements, list_elem_of_In.
      + now apply bool_decide_eq_true in Hin.
    - intros (r & Hr & Hin). exists r. split.
      + now apply list_elem_of_In, elem_of_elements.
      + now apply bool_decide_eq_true. }
  split; [vm_compute; reflexivity|]. split; [vm_compute; reflexivity|].
  split; [exact Hiff|].
  intros t S Hnone. apply not_true_is_false. rewrite Hiff, Hnone.
  intros (r & _ & Hin). cbn in Hin. inversion Hin.
Qed.

Lemma insert_returns {A K : Type} (ltb : K -> K -> bool) reverse (x : K * A) l :
  exists r, insert (fun a b => Return (ltb a b)) reverse x l = Return r.
Proof.
  induction l as [|y l [r Hr]]; cbn; [eauto|].
  destruct reverse; cbn.
  - destruct (ltb x.1 y.1); [rewrite Hr|]; cbn; eauto.
  - destruct (ltb y.1 x.1); [rewrite Hr|]; cbn; eauto.
Qed.



Example extract_java_example :
  _extract_java_compatibility_info
    [ {| title := "Spring-Core on Java8"; link := "u1"; snippet := "built for java11 and java8" |} ]
    "spring-core" "java17"
  = Return {| is_compatible := true; evidence := []; recommendations := [];
              supported_runtimes := ["java11"; "java8"] |}.
Proof. vm_compute. reflexivity. Qed.

End RuntimeChain.

(** ** Vulnerability extraction *)

Section Vulnerabilities.

Import Re GoogleSearchAPI.

(** The [if]/[elif] chain is first-match priority over the keyword list. *)
Lemma extract_severity_first_keyword text :
  _extract_severity text = first_keyword text.
Proof.
  unfold _extract_severity, first_keyword, severity_keywords. cbn [find].
  repeat match goal with
         | |- context [Str.contains ?k ?t] => destruct (Str.contains k t)
         end; reflexivity.
Qed.

Lemma collect_vulnerabilities_app vs r :
  collect_vulnerabilities vs r =
  vs ++ map (record_of r) (findall cve_pattern (text_of r)).
Proof.
  unfold collect_vulnerabilities.
  assert (Hfold : forall l acc,
            fold_left
              (fun vulnerabilities cve =>
                 vulnerabilities ++
                 [ {| v_id := cve; v_source := link r;
                      v_description := snippet r;
                      v_severity := _extract_severity (text_of r) |} ])
              l acc
            = acc ++ map (record_of r) l).
  { induction l as [|cve l IH]; intros acc; cbn.
    - now rewrite app_nil_r.
    - rewrite IH, <- List.app_assoc. unfold record_of at 2.
      now rewrite extract_severity_first_keyword. }
  destruct (findall cve_pattern (text_of r)) as [|cve l] eqn:E.
  - cbn. now rewrite app_nil_r.
  - apply Hfold.
Qed.

Lemma fold_collect_vulnerabilities results vs :
  fold_left collect_vulnerabilities results vs =
  vs ++ flat_map (fun r => map (record_of r) (findall cve_pattern (text_of r)))
          results.
Proof.
  revert vs. induction results as [|r results IH]; intros vs; cbn.
  - now rewrite app_nil_r.
  - now rewrite IH, collect_vulnerabilities_app, <- List.app_assoc.
Qed.

Example two_cves :
  vulnerabilities
    (_extract_vulnerability_info
       [ {| title := "Advisory"; link := "https://example.org/a";
            snippet := "... CVE-2023-1234 and CVE-2021-44228 affect this package ..." |} ]
       "pkg" "1.0.0")
  = [ {| v_id := "CVE-2023-1234"; v_source := "https://example.org/a";
         v_description := "... CVE-2023-1234 and CVE-2021-44228 affect this package ...";
         v_severity := "unknown" |};
      {| v_id := "CVE-2021-44228"; v_source := "https://example.org/a";
         v_description := "... CVE-2023-1234 and CVE-2021-44228 affect this package ...";
         v_severity := "unknown" |} ].
Proof. vm_compute. reflexivity. Qed.

Example severity_priority :
  _extract_severity "Low effort, HIGH impact; some call it Critical" = "critical"
  /\ _extract_severity "Low effort, HIGH impact" = "high"
  /\ _extract_severity "a slow medium" = "medium"
  /\ _extract_severity "allow" = "low"
  /\ _extract_severity "CVE-2020-0001 in the parser" = "unknown".
Proof. repeat split. Qed.

(** C7. Vulnerability extraction reports exactly one record for each match
    of the CVE pattern in the title-and-snippet text of each result, in
    order; the severity of a record is the first of the keywords critical,
    high, medium, low that occurs in the lower-cased text, and "unknown"
    when none occurs. *)
Theorem extract_vulnerability_info_records
    (results : list search_result) (package_name version : string) :
  let info := _extract_vulnerability_info results package_name version in
  vulnerabilities info =
    flat_map (fun r => map (record_of r) (findall cve_pattern (text_of r))) results
  /\ length (vulnerabilities info) =
       list_sum (map (fun r => length (findall cve_pattern (text_of r))) results)
  /\ (forall text, _extract_severity text = first_keyword text)
  /\ (forall text,
        (forall keyword, keyword ∈ severity_keywords ->
           Str.contains keyword (Str.lower text) = false) ->
        _extract_severity text = "unknown").
Proof.
  cbn zeta. unfold _extract_vulnerability_info. cbn [vulnerabilities].
  rewrite fold_collect_vulnerabilities. cbn [app].
  split; [reflexivity|]. split; [|split].
  - induction results as [|r results IH]; [reflexivity|].
    cbn. now rewrite length_app, length_map, IH.
  - exact extract_severity_first_keyword.
  - intros text Hnone. unfold _extract_severity.
    rewrite !Hnone; [reflexivity|unfold severity_keywords; set_solver..].
Qed.

End Vulnerabilities.

(** ** Version tokens *)

Section StringOrder.

Import Str.

Lemma str_lt_leb a b : lt a b = negb (String.leb b a).
Proof.
  unfold lt, String.ltb, String.leb. rewrite (String.compare_antisym a b).
  now destruct (String.compare b a).
Qed.

Lemma str_lt_asym a b : lt a b = true -> lt b a = false.
Proof.
  unfold lt, String.ltb. rewrite (String.compare_antisym a b).
  now destruct (String.compare b a).
Qed.

Lemma str_lt_negtrans a b c : lt a b = false -> lt b c = false -> lt a c = false.
Proof.
  rewrite !str_lt_leb, !negb_false_iff. intros Hba Hcb.
  apply Is_true_true. apply Is_true_true in Hba, Hcb.
  exact (transitivity (R := String.le) Hcb Hba).
Qed.

Lemma str_lt_total a b : a <> b -> lt a b = false -> lt b a = true.
Proof.
  unfold lt, String.ltb. intros Hne. rewrite (String.compare_antisym a b).
  destruct (String.compare b a) eqn:E; cbn; try congruence.
  apply String.compare_eq_iff in E. congruence.
Qed.

End StringOrder.

Section ExtractVersions.

Import Py Re GoogleSearchAPI.

Lemma elem_of_collect_versions package_name target_framework versions r v :
  v ∈ collect_versions package_name target_framework versions r <->
  v ∈ versions \/ contributes package_name target_framework r v.
Proof.
  unfold collect_versions, contributes.
  destruct (mentions _ _ _).
  - rewrite !elem_of_union, !elem_of_list_to_set. tauto.
  - split; [auto|]. intros [Hv|[Hf _]]; [exact Hv|discriminate].
Qed.

Lemma elem_of_fold_collect package_name target_framework results versions v :
  v ∈ fold_left (collect_versions package_name target_framework) results versions
  <-> v ∈ versions
      \/ exists r, r ∈ results /\ contributes package_name target_framework r v.
Proof.
  revert versions. induction results as [|r results IH]; intros versions; cbn.
  - split; [auto|]. intros [Hv|(r & Hr & _)]; [exact Hv|inversion Hr].
  - rewrite IH, elem_of_collect_versions. split.
    + intros [[Hv|Hc]|(r' & Hr' & Hc)]; [auto|right..].
      * exists r. split; [left|exact Hc].
      * exists r'. split; [now right|exact Hc].
    + intros [Hv|(r' & Hr' & Hc)]; [auto|].
      apply elem_of_cons in Hr' as [->|Hr']; [auto|]. right. eauto.
Qed.

Lemma StronglySorted_strict {A : Type} (R : A -> A -> Prop) l :
  StronglySorted R l -> NoDup l ->
  StronglySorted (fun a b => R a b /\ a <> b) l.
Proof.
  induction 1 as [|a l _ IH Ha]; intros Hnd; constructor.
  - apply IH. now apply NoDup_cons in Hnd as [_ Hnd].
  - apply NoDup_cons in Hnd as [Hnotin _].
    rewrite Forall_forall in *. intros b Hb. split; [auto|].
    intros ->. contradiction.
Qed.

(** [sorted(l, reverse=True)] on distinct strings: the same strings, each
    one greater than all that follow it. *)
Lemma sorted_str_reverse_spec l :
  NoDup l ->
  exists r, sorted_str true l = Return r /\ r ≡ₚ l
            /\ StronglySorted (fun a b => Str.lt b a = true) r.
Proof.
  intros Hnd. unfold sorted_str.
  destruct (sorted_reverse_spec Str.lt (fun x => Return x) l l)
    as (r & Hr & Hp & Hs).
  { induction l; constructor; auto. apply IHl. now apply NoDup_cons in Hnd as [_ ?]. }
  exists r. split; [exact Hr|]. split; [exact Hp|].
  specialize (Hs str_lt_asym str_lt_negtrans).
  assert (Hnd' : NoDup r) by now rewrite Hp.
  eapply StronglySorted_impl; [|exact (StronglySorted_strict _ _ Hs Hnd')].
  intros a b [(ka & kb & [= <-] & [= <-] & Hlt) Hne]. now apply str_lt_total.
Qed.

Lemma extract_versions_run results package_name target_framework :
  exists l,
    extract_versions results package_name target_framework = Return l
    /\ (forall v, v ∈ l <->
          exists r, r ∈ results /\ contributes package_name target_framework r v)
    /\ NoDup l
    /\ StronglySorted (fun a b => Str.lt b a = true) l.
Proof.
  unfold extract_versions.
  set (versions := fold_left _ results ∅).
  destruct (sorted_str_reverse_spec (elements versions) (NoDup_elements versions))
    as (l & Hl & Hp & Hs).
  exists l. split; [exact Hl|]. split; [|split; [|exact Hs]].
  - intros v. rewrite Hp, elem_of_elements. unfold versions.
    rewrite elem_of_fold_collect. split; [|auto].
    intros [Hv|Hr]; [|exact Hr]. set_solver.
  - rewrite Hp. apply NoDup_elements.
Qed.

(** C6. [extract_versions] collects tokens only from the results whose
    lower-cased title-and-snippet text contains both the lower-cased
    package name and the lower-cased target; a token is reported once
    however often it was found; and the answer is in strictly descending
    order of plain string comparison, which is not the numeric order of
    versions: ["10.0.0"] sorts below ["9.0.1"]. *)
Theorem extract_versions_collects
    (results : list search_result) (package_name target_framework : string) :
  exists l,
    extract_versions results package_name target_framework = Return l
    /\ (forall v, v ∈ l <->
          exists r, r ∈ results
            /\ mentions package_name target_framework (Str.lower (text_of r)) = true
            /\ (v ∈ findall three_component (Str.lower (text_of r))
                \/ v ∈ findall two_component (Str.lower (text_of r))))
    /\ NoDup l
    /\ StronglySorted (fun a b => Str.lt b a = true) l
    /\ Str.lt "10.0.0" "9.0.1" = true.
Proof.
  destruct (extract_versions_run results package_name target_framework)
    as (l & Hl & Hin & Hnd & Hs).
  exists l. split; [exact Hl|]. split; [exact Hin|].
  split; [exact Hnd|]. split; [exact Hs|reflexivity].
Qed.

End ExtractVersions.

(** ** Fragments of three-component tokens *)

Section VersionFragments.

Import Str Py Re GoogleSearchAPI.

Lemma three_component_version_pattern : version_pattern three_component.
Proof.
  intros s m Hm. split; [exact (match_here_nonempty _ _ _ _ _ Hm)|].
  apply (match_here_shape version_char _ _ _) in Hm; [exact Hm| |reflexivity].
  intros c Hc. unfold version_char. now rewrite Hc.
Qed.

Lemma two_component_version_pattern : version_pattern two_component.
Proof.
  intros s m Hm. split; [exact (match_here_nonempty _ _ _ _ _ Hm)|].
  apply (match_here_shape version_char _ _ _) in Hm; [exact Hm| |reflexivity].
  intros c Hc. unfold version_char. now rewrite Hc.
Qed.

Lemma ends_clear_tail c s : ends_clear (String c s) = true -> ends_clear s = true.
Proof. destruct s; [reflexivity|]. cbn. auto. Qed.

(** A text of version characters that starts where [pre] starts ends
    before [pre] does, [pre] ending with another character. *)
Lemma match_inside_prefix pre rest m u :
  pre <> "" -> ends_clear pre = true -> all version_char m = true ->
  pre +:+ rest = m +:+ u -> String.length m < String.length pre.
Proof.
  revert m. induction pre as [|c pre IH]; intros m Hne Hclear Hm Heq;
    [congruence|].
  destruct m as [|c' m]; [cbn; lia|].
  rewrite !str_app_cons in Heq. injection Heq as <- Heq.
  cbn in Hm. apply andb_true_iff in Hm as [Hc Hm].
  destruct pre as [|c2 pre].
  - cbn in Hclear. rewrite Hc in Hclear. discriminate.
  - cbn [String.length].
    assert (String.length m < String.length (String c2 pre)); [|cbn in *; lia].
    apply IH; [discriminate|exact (ends_clear_tail _ _ Hclear)|exact Hm|exact Heq].
Qed.

(** The scan reaches the first position after a prefix that ends with a
    character foreign to versions. *)
Lemma scan_past_prefix p pre rest skip :
  version_pattern p -> ends_clear pre = true ->
  skip = 0 \/ skip < String.length pre ->
  exists ms, scan p skip (pre +:+ rest) = ms ++ scan p 0 rest.
Proof.
  intros Hp. revert skip. induction pre as [|c pre IH]; intros skip Hclear Hskip.
  - exists []. destruct Hskip as [->|Hlt]; [reflexivity|cbn in Hlt; lia].
  - rewrite str_app_cons. pose proof (ends_clear_tail _ _ Hclear) as Hclear'.
    destruct skip as [|n]; cbn [scan].
    + destruct (match_here p (String c (pre +:+ rest))) as [m|] eqn:E.
      * destruct (Hp _ _ E) as (Hne & Hm & u & Hu).
        assert (Hlen : String.length m < String.length (String c pre)).
        { apply (match_inside_prefix (String c pre) rest m u);
            [discriminate|exact Hclear|exact Hm|].
          now rewrite str_app_cons. }
        destruct (IH (pred (String.length m)) Hclear') as [ms Hms].
        { right. destruct m; [congruence|]. cbn in *. lia. }
        exists (m :: ms). now rewrite Hms.
      * apply IH; [exact Hclear'|now left].
    + apply IH; [exact Hclear'|]. right. cbn in Hskip. destruct Hskip; [lia|lia].
Qed.

Lemma findall_past_prefix p pre rest v :
  version_pattern p -> ends_clear pre = true ->
  v ∈ scan p 0 rest -> v ∈ findall p (pre +:+ rest).
Proof.
  intros Hp Hclear Hv. unfold findall.
  destruct (scan_past_prefix p pre rest 0 Hp Hclear) as [ms ->]; [now left|].
  apply elem_of_app. now right.
Qed.

Lemma number_digits s :
  number s = true -> all is_digit s = true /\ 1 <= String.length s.
Proof.
  unfold number. intros [Hd Hne]%andb_true_iff. split; [exact Hd|].
  destruct s; [discriminate|cbn; lia].
Qed.

Lemma digit_not_dot c : is_digit c = true -> Ascii.eqb "." c = false.
Proof.
  intros Hc. destruct (Ascii.eqb_spec "."%char c) as [<-|]; [discriminate|reflexivity].
Qed.

Lemma starts_clear_no_digit s : starts_clear s = true -> digit_ahead s = false.
Proof.
  destruct s as [|c s]; [reflexivity|]. cbn. unfold version_char.
  intros H. apply negb_true_iff, orb_false_iff in H as [H _]. exact H.
Qed.

(** The tail [(?!\.)] of the two-component pattern. *)
Lemma not_ahead_clear s :
  starts_clear s = true -> match_here [NotAhead "."] s = Some "".
Proof.
  destruct s as [|c s]; [reflexivity|]. cbn [starts_clear match_here].
  unfold version_char.
  intros H. apply negb_true_iff, orb_false_iff in H as [_ H].
  rewrite Ascii.eqb_sym in H. now rewrite H.
Qed.

Lemma not_ahead_digit c s :
  is_digit c = true -> match_here [NotAhead "."] (String c s) = Some "".
Proof. intros Hc. cbn [match_here]. now rewrite (digit_not_dot _ Hc). Qed.

(** The three-component pattern takes the whole token. *)
Lemma three_component_at_token x y z post :
  number x = true -> number y = true -> number z = true ->
  starts_clear post = true ->
  match_here three_component
    (x +:+ String "." (y +:+ String "." (z +:+ post)))
  = Some (x +:+ String "." (y +:+ String "." z)).
Proof.
  intros [Hx Hlx]%number_digits [Hy Hly]%number_digits [Hz Hlz]%number_digits Hpost.
  unfold three_component. cbn [match_here].
  apply digits_greedy; [exact Hx|reflexivity|exact Hlx|].
  cbn [match_here]. rewrite Ascii.eqb_refl.
  rewrite (digits_greedy _ 1 y (String "." (z +:+ post)) (String "." z));
    [reflexivity|exact Hy|reflexivity|exact Hly|].
  cbn [match_here]. rewrite Ascii.eqb_refl.
  rewrite (digits_greedy _ 1 z post ""); [|exact Hz| |exact Hlz|reflexivity].
  - cbn. now rewrite str_app_nil_r.
  - now apply starts_clear_no_digit.
Qed.

(** After a one-digit middle component the two-component pattern fails on
    the first component: the lookahead sees the second dot, and there is
    no digit to give back. *)
Lemma two_component_fails x c rest :
  all is_digit x = true -> is_digit c = true ->
  match_here two_component (x +:+ String "." (String c (String "." rest))) = None.
Proof.
  intros Hx Hc. unfold two_component. cbn [match_here].
  apply digits_fail; [exact Hx|reflexivity| |].
  - intros [|c' t] Ht; [discriminate|]. cbn in Ht. cbn [match_here].
    now rewrite (digit_not_dot _ Ht).
  - cbn [match_here]. rewrite Ascii.eqb_refl. cbn [digits].
    rewrite Hc. cbn [andb may_take fmap option_fmap option_map pred].
    cbn. reflexivity.
Qed.

Lemma scan_two_component_single x c rest :
  all is_digit x = true -> is_digit c = true ->
  scan two_component 0 (x +:+ String "." (String c (String "." rest)))
  = scan two_component 0 (String c (String "." rest)).
Proof.
  intros Hx Hc. induction x as [|a x IH].
  - rewrite str_app_nil_l. apply scan_no_match.
    exact (two_component_fails "" c rest eq_refl Hc).
  - rewrite str_app_cons. rewrite scan_no_match.
    + apply IH. cbn in Hx. now apply andb_true_iff in Hx as [_ Hx].
    + rewrite <- str_app_cons. now apply two_component_fails.
Qed.

(** On a single digit, a dot and a last component the two-component
    pattern succeeds. *)
Lemma two_component_at_last_digit c z post :
  is_digit c = true -> number z = true -> starts_clear post = true ->
  match_here two_component (String c (String "." (z +:+ post)))
  = Some (String c (String "." z)).
Proof.
  intros Hc [Hz Hlz]%number_digits Hpost.
  unfold two_component. cbn [match_here].
  change (String c (String "." (z +:+ post)))
    with (String c "" +:+ String "." (z +:+ post)).
  rewrite (digits_greedy _ 1 (String c "") _ (String "." z));
    [reflexivity|cbn; now rewrite Hc|reflexivity|cbn; lia|].
  cbn [match_here]. rewrite Ascii.eqb_refl.
  rewrite (digits_greedy _ 1 z post ""); [|exact Hz| |exact Hlz|].
  - cbn. now rewrite str_app_nil_r.
  - now apply starts_clear_no_digit.
  - exact (not_ahead_clear post Hpost).
Qed.

(** With a longer middle component the pattern gives its last digit back,
    and matches the first component with the rest of the middle one. *)
Lemma two_component_gives_back x y c rest :
  number x = true -> number y = true -> is_digit c = true ->
  match_here two_component (x +:+ String "." (y +:+ String c (String "." rest)))
  = Some (x +:+ String "." y).
Proof.
  intros [Hx Hlx]%number_digits [Hy Hly]%number_digits Hc.
  unfold two_component. cbn [match_here].
  apply digits_greedy; [exact Hx|reflexivity|exact Hlx|].
  cbn [match_here]. rewrite Ascii.eqb_refl.
  rewrite (digits_give_back _ 1 y c (String "." rest) "");
    [|exact Hy|exact Hc|reflexivity|exact Hly|reflexivity
     |exact (not_ahead_digit c (String "." rest) Hc)].
  cbn. now rewrite str_app_nil_r.
Qed.

Lemma last_char_split s :
  s <> "" -> exists s' c, s = s' +:+ String c "" /\ last_char s = String c "".
Proof.
  induction s as [|a s IH]; [congruence|]. intros _.
  destruct s as [|b s].
  - exists "", a. split; reflexivity.
  - destruct IH as (s' & c & Hs & Hl); [discriminate|].
    exists (String a s'), c. rewrite str_app_cons, <- Hs. split; [reflexivity|].
    exact Hl.
Qed.

Lemma all_digit_split s c :
  all is_digit (s +:+ String c "") = true ->
  all is_digit s = true /\ is_digit c = true.
Proof.
  rewrite str_all_app. cbn. rewrite andb_true_r. apply andb_true_iff.
Qed.

(** In the scan of a delimited token [x.y.z] the two-component pattern
    reports the last digit of [y], a dot and [z]. *)
Lemma scan_two_component_token x y z post :
  number x = true -> number y = true -> number z = true ->
  starts_clear post = true ->
  (last_char y +:+ String "." z)
    ∈ scan two_component 0 (x +:+ String "." (y +:+ String "." (z +:+ post))).
Proof.
  intros Hx Hy Hz Hpost.
  destruct (number_digits _ Hx) as [Hdx _].
  destruct (number_digits _ Hy) as [Hdy Hly].
  destruct (last_char_split y) as (y' & c & -> & ->).
  { intros ->. cbn in Hly. lia. }
  apply all_digit_split in Hdy as [Hdy' Hc].
  assert (Hlast : scan two_component 0 (String c (String "." (z +:+ post)))
                  = String c (String "." z) :: scan two_component 0 post).
  { change (String c (String "." (z +:+ post)))
      with (String c (String "." z) +:+ post).
    apply scan_match; [discriminate|].
    change (String c (String "." z) +:+ post)
      with (String c (String "." (z +:+ post))).
    now apply two_component_at_last_digit. }
  replace ((y' +:+ String c "") +:+ String "." (z +:+ post))
    with (y' +:+ String c (String "." (z +:+ post)))
    by (rewrite str_app_assoc; reflexivity).
  change (String c "" +:+ String "." z) with (String c (String "." z)).
  destruct y' as [|b y'].
  - rewrite str_app_nil_l, scan_two_component_single by assumption.
    rewrite Hlast. left.
  - assert (Hy' : number (String b y') = true).
    { unfold number. rewrite Hdy'. reflexivity. }
    pose proof (two_component_gives_back x (String b y') c (z +:+ post) Hx Hy' Hc)
      as Hm.
    replace (x +:+ String "." (String b y' +:+ String c (String "." (z +:+ post))))
      with ((x +:+ String "." (String b y')) +:+ String c (String "." (z +:+ post)))
      in * by (rewrite str_app_assoc, str_app_cons; reflexivity).
    rewrite scan_match; [|destruct x; discriminate|exact Hm].
    rewrite Hlast. right. left.
Qed.

Lemma scan_three_component_token x y z post :
  number x = true -> number y = true -> number z = true ->
  starts_clear post = true ->
  (x +:+ String "." (y +:+ String "." z))
    ∈ scan three_component 0 (x +:+ String "." (y +:+ String "." (z +:+ post))).
Proof.
  intros Hx Hy Hz Hpost.
  pose proof (three_component_at_token x y z post Hx Hy Hz Hpost) as Hm.
  replace (x +:+ String "." (y +:+ String "." (z +:+ post)))
    with ((x +:+ String "." (y +:+ String "." z)) +:+ post) in *
    by (rewrite !str_app_assoc, !str_app_cons, !str_app_assoc, !str_app_cons;
        reflexivity).
  rewrite scan_match; [left| |exact Hm].
  destruct (number_digits _ Hx) as [_ Hlx]. destruct x; [cbn in Hlx; lia|discriminate].
Qed.

End VersionFragments.

Section FragmentClaims.

Import Str Py Re GoogleSearchAPI.

(** C10, as the code has it.  When the lower-cased text of a result that
    mentions the package and the target holds a three-component token
    [x.y.z], delimited on both sides by the ends of the text or by
    characters that are neither digits nor dots, [extract_versions]
    returns [x.y.z] and also the fragment made of the last digit of [y], a
    dot and [z].  That fragment is the suffix [y.z] when [y] is a single
    digit. *)
Theorem extract_versions_token_fragments
    (results : list search_result) (package_name target_framework : string)
    (r : search_result) (pre x y z post : string) :
  r ∈ results ->
  mentions package_name target_framework (lower (text_of r)) = true ->
  lower (text_of r) = pre +:+ x +:+ "." +:+ y +:+ "." +:+ z +:+ post ->
  number x = true -> number y = true -> number z = true ->
  ends_clear pre = true -> starts_clear post = true ->
  exists l,
    extract_versions results package_name target_framework = Return l
    /\ (x +:+ "." +:+ y +:+ "." +:+ z) ∈ l
    /\ (last_char y +:+ "." +:+ z) ∈ l
    /\ (String.length y = 1 -> (y +:+ "." +:+ z) ∈ l).
Proof.
  intros Hr Hmentions Htext Hx Hy Hz Hpre Hpost.
  destruct (extract_versions_run results package_name target_framework)
    as (l & Hl & Hin & _).
  exists l. split; [exact Hl|].
  assert (H3 : (x +:+ "." +:+ y +:+ "." +:+ z) ∈ l).
  { apply Hin. exists r. split; [exact Hr|]. split; [exact Hmentions|]. left.
    rewrite Htext.
    apply findall_past_prefix;
      [exact three_component_version_pattern|exact Hpre|].
    exact (scan_three_component_token x y z post Hx Hy Hz Hpost). }
  assert (H2 : (last_char y +:+ "." +:+ z) ∈ l).
  { apply Hin. exists r. split; [exact Hr|]. split; [exact Hmentions|]. right.
    rewrite Htext.
    apply findall_past_prefix;
      [exact two_component_version_pattern|exact Hpre|].
    exact (scan_two_component_token x y z post Hx Hy Hz Hpost). }
  split; [exact H3|]. split; [exact H2|].
  intros Hlen. destruct y as [|c [|c' y]]; cbn in Hlen; try discriminate.
  exact H2.
Qed.

Lemma extract_versions_token_fragments_witness :
  let r := {| title := "Pkg 1.2.3 on NET48"; link := "u"; snippet := "ok" |} in
  r ∈ [r]
  /\ mentions "pkg" "net48" (lower (text_of r)) = true
  /\ lower (text_of r) = "pkg " +:+ "1" +:+ "." +:+ "2" +:+ "." +:+ "3" +:+ " on net48 ok"
  /\ number "1" = true /\ number "2" = true /\ number "3" = true
  /\ ends_clear "pkg " = true /\ starts_clear " on net48 ok" = true
  /\ exists l,
      extract_versions [r] "pkg" "net48" = Return l
      /\ ("1" +:+ "." +:+ "2" +:+ "." +:+ "3") ∈ l
      /\ (last_char "2" +:+ "." +:+ "3") ∈ l
      /\ (String.length "2" = 1 -> ("2" +:+ "." +:+ "3") ∈ l).
Proof.
  intros r.
  assert (Hr : r ∈ [r]) by left.
  repeat (split; [first [exact Hr | reflexivity]|]).
  exact (extract_versions_token_fragments [r] "pkg" "net48" r
           "pkg " "1" "2" "3" " on net48 ok"
           Hr eq_refl eq_refl eq_refl eq_refl eq_refl eq_refl eq_refl).
Defined.

(** The two-component suffix of a token is not always reported: with the
    middle component [23] the fragments are [1.2] and [3.4], and [23.4]
    does not occur. *)
Lemma two_component_suffix_counterexample :
  let r := {| title := "pkg net48 1.23.4"; link := "u"; snippet := "" |} in
  mentions "pkg" "net48" (lower (text_of r)) = true
  /\ lower (text_of r) = "pkg net48 " +:+ "1" +:+ "." +:+ "23" +:+ "." +:+ "4" +:+ " "
  /\ extract_versions [r] "pkg" "net48" = Return ["3.4"; "1.23.4"; "1.2"]
  /\ ("23" +:+ "." +:+ "4") ∉ ["3.4"; "1.23.4"; "1.2"].
Proof.
  intros r. split; [reflexivity|]. split; [reflexivity|].
  split; [vm_compute; reflexivity|].
  intros H. repeat (apply elem_of_cons in H as [H|H]; [discriminate H|]).
  inversion H.
Qed.

End FragmentClaims.


(** ** The remaining registry operations *)

Section DependencyFacts.

Import Py NuGetAPI NuGetOperations.

Lemma fold_add_dependency deps acc :
  fold_left add_dependency deps acc = acc ++ map dependency_info_of deps.
Proof.
  revert acc. induction deps as [|d deps IH]; intros acc; cbn.
  - now rewrite app_nil_r.
  - rewrite IH. unfold add_dependency. now rewrite <- List.app_assoc.
Qed.

Lemma fold_visit_group target groups acc :
  fold_left (visit_group target) groups acc =
  acc ++ map dependency_info_of
           (flat_map gd_dependencies
              (filter (fun g => gd_targetFramework g = Some target) groups)).
Proof.
  revert acc. induction groups as [|g groups IH]; intros acc; cbn [fold_left].
  - cbn. now rewrite app_nil_r.
  - rewrite IH. unfold visit_group. rewrite filter_cons.
    case_bool_decide as Hg.
    + rewrite decide_True by exact Hg. cbn [flat_map].
      rewrite fold_add_dependency, map_app, <- List.app_assoc. reflexivity.
    + rewrite decide_False by exact Hg. reflexivity.
Qed.

Lemma fold_visit_leaf version target leaves acc :
  fold_left (visit_leaf version target) leaves acc =
  acc ++ map dependency_info_of
           (flat_map gd_dependencies
              (filter (fun g => gd_targetFramework g = Some target)
                 (flat_map cd_dependencyGroups
                    (filter (fun e => cd_version e = Some version) leaves)))).
Proof.
  revert acc. induction leaves as [|e leaves IH]; intros acc; cbn [fold_left].
  - cbn. now rewrite app_nil_r.
  - rewrite IH. unfold visit_leaf. rewrite (filter_cons _ e).
    case_bool_decide as He.
    + rewrite decide_True by exact He. cbn [flat_map].
      rewrite fold_visit_group, filter_app, flat_map_app, map_app.
      now rewrite <- List.app_assoc.
    + rewrite decide_False by exact He. reflexivity.
Qed.

Lemma fold_visit_pages version target (data : detailed_index) acc :
  fold_left
    (fun dependencies entry => fold_left (visit_leaf version target) entry dependencies)
    data acc =
  acc ++ map dependency_info_of
           (flat_map gd_dependencies (requested_groups data version target)).
Proof.
  unfold requested_groups. revert acc.
  induction data as [|page data IH]; intros acc; cbn [fold_left concat].
  - cbn. now rewrite app_nil_r.
  - rewrite IH, fold_visit_leaf.
    rewrite (filter_app _ page), flat_map_app, filter_app, flat_map_app, map_app.
    now rewrite <- List.app_assoc.
Qed.

(** X1. Whenever the index was fetched, [get_package_dependencies] answers
    with a success envelope whose dependencies are, in catalog order, those
    of the groups whose target framework is literally the requested string,
    in the leaves whose version is literally the requested one; each is
    reported with type "direct". *)
Theorem get_package_dependencies_exact
    (data : detailed_index) (package_id version target_framework : string) :
  get_package_dependencies (Return data) package_id version target_framework =
  Return (Success
    {| dr_package_id := package_id;
       dr_version := version;
       dr_target_framework := target_framework;
       dr_dependencies :=
         map dependency_info_of
           (flat_map gd_dependencies
              (requested_groups data version target_framework)) |})
  /\ (forall d,
        d ∈ map dependency_info_of
              (flat_map gd_dependencies
                 (requested_groups data version target_framework)) ->
        di_type d = "direct").
Proof.
  split.
  - unfold get_package_dependencies. cbn. now rewrite fold_visit_pages.
  - intros d Hd. apply list_elem_of_In, in_map_iff in Hd as (dep & <- & _).
    reflexivity.
Qed.

(** X2. The target framework is compared as written, without the
    normalisation the resolver applies: when no group of the requested
    version carries exactly the requested spelling, the dependency list is
    empty, whatever the groups normalise to. *)
Theorem get_package_dependencies_raw_framework
    (data : detailed_index) (package_id version target_framework : string) :
  (forall e g, e ∈ concat data -> cd_version e = Some version ->
     g ∈ cd_dependencyGroups e -> gd_targetFramework g <> Some target_framework) ->
  get_package_dependencies (Return data) package_id version target_framework =
  Return (Success
    {| dr_package_id := package_id;
       dr_version := version;
       dr_target_framework := target_framework;
       dr_dependencies := [] |}).
Proof.
  intros Hnone. unfold get_package_dependencies. cbn. rewrite fold_visit_pages.
  assert (Hg : requested_groups data version target_framework = []).
  { destruct (requested_groups data version target_framework) as [|g l] eqn:E;
      [reflexivity|exfalso].
    assert (Hg : g ∈ requested_groups data version target_framework)
      by (rewrite E; left).
    unfold requested_groups in Hg.
    apply list_elem_of_filter in Hg as [Hgt Hg].
    apply list_elem_of_In, in_flat_map in Hg as (e & He & Hge).
    apply list_elem_of_In, list_elem_of_filter in He as [Hv He].
    apply (Hnone e g He Hv); [now apply list_elem_of_In|exact Hgt]. }
  now rewrite Hg.
Qed.

End DependencyFacts.

Section MetadataFacts.

Import Py NuGetAPI NuGetOperations.

Lemma scan_page_first version metadata page :
  scan_page version metadata page =
  match first_in_page version page with
  | Some e => Some (metadata_of e)
  | None => metadata
  end.
Proof.
  unfold first_in_page. induction page as [|e page IH]; cbn; [reflexivity|].
  destruct (bool_decide (cd_version e = Some version)); [reflexivity|exact IH].
Qed.

Lemma fold_scan_page version (data : detailed_index) metadata :
  fold_left (scan_page version) data metadata =
  match reported_leaf data version with
  | Some e => Some (metadata_of e)
  | None => metadata
  end.
Proof.
  unfold reported_leaf. revert metadata.
  induction data as [|page data IH]; intros metadata; cbn [fold_left];
    [reflexivity|].
  rewrite IH, scan_page_first.
  destruct (first_in_page version page) as [e|] eqn:E.
  - replace (omap (first_in_page version) (page :: data))
      with (e :: omap (first_in_page version) data) by (cbn; now rewrite E).
    rewrite last_cons. now destruct (last (omap (first_in_page version) data)).
  - replace (omap (first_in_page version) (page :: data))
      with (omap (first_in_page version) data) by (cbn; now rewrite E).
    reflexivity.
Qed.

Lemma first_in_page_elem version page e :
  first_in_page version page = Some e -> e ∈ page /\ cd_version e = Some version.
Proof.
  unfold first_in_page. intros Hf. apply find_some in Hf as [Hin Hv].
  split; [now apply list_elem_of_In|]. now apply bool_decide_eq_true in Hv.
Qed.

Lemma first_in_page_none version page :
  first_in_page version page = None <->
  forall e, e ∈ page -> cd_version e <> Some version.
Proof.
  unfold first_in_page. split.
  - intros Hf e He Hv.
    pose proof (find_none _ _ Hf e (proj1 (list_elem_of_In _ _) He)) as Hn.
    cbn in Hn. apply bool_decide_eq_false in Hn. contradiction.
  - intros Hnone. induction page as [|e page IH]; cbn; [reflexivity|].
    rewrite bool_decide_eq_false_2 by (apply Hnone; left).
    apply IH. intros e' He'. apply Hnone. now right.
Qed.

(** X3. Whenever the index was fetched, [get_package_metadata] answers with
    a success envelope.  Because [break] leaves only the loop over one page,
    the metadata reported is that of the first leaf with the requested
    version in the last page that has one; when no leaf has the version the
    metadata is empty, and this is not an error. *)
Theorem get_package_metadata_reports
    (data : detailed_index) (package_id version : string) :
  get_package_metadata (Return data) package_id version =
  Return (Success {| mr_package_id := package_id;
                     mr_version := version;
                     mr_metadata := metadata_of <$> reported_leaf data version |})
  /\ (forall e, reported_leaf data version = Some e ->
        e ∈ concat data /\ cd_version e = Some version)
  /\ ((forall e, e ∈ concat data -> cd_version e <> Some version) ->
      reported_leaf data version = None)
  /\ (forall page e, first_in_page version page = Some e ->
        reported_leaf (data ++ [page]) version = Some e).
Proof.
  split; [|split; [|split]].
  - unfold get_package_metadata. cbn. rewrite fold_scan_page.
    now destruct (reported_leaf data version).
  - intros e He. unfold reported_leaf in He.
    apply last_Some_elem_of, list_elem_of_omap in He as (page & Hpage & Hf).
    apply first_in_page_elem in Hf as [He Hv]. split; [|exact Hv].
    apply list_elem_of_In, in_concat. exists page.
    split; now apply list_elem_of_In.
  - intros Hnone. unfold reported_leaf.
    assert (Hn : omap (first_in_page version) data = []); [|now rewrite Hn].
    induction data as [|page data IH]; [reflexivity|]. cbn.
    replace (first_in_page version page) with (@None catalog_detail).
    + apply IH. intros e He. apply Hnone. cbn. apply elem_of_app. now right.
    + symmetry. apply first_in_page_none. intros e He. apply Hnone.
      cbn. apply elem_of_app. now left.
  - intros page e Hf. unfold reported_leaf. rewrite omap_app. cbn.
    rewrite Hf. cbn. apply last_snoc.
Qed.

(** X4. [check_package_vulnerabilities] never looks at the document it
    fetched: with any fetched document the answer is a success envelope
    whose list is non-empty exactly for the package id "newtonsoft.json", in
    any letter case, at version "9.0.1"; and when the fetch fails with a
    request error the answer is an error envelope for every package, that
    one included. *)
Theorem check_package_vulnerabilities_placeholder
    {D : Type} (d : D) (now package_id version : string) :
  (exists r,
     check_package_vulnerabilities (Return d) now package_id version
     = Return (Success r)
     /\ vu_last_checked r = now
     /\ (vu_vulnerabilities r <> [] <->
         Str.lower package_id = "newtonsoft.json" /\ version = "9.0.1"))
  /\ (forall (D' : Type) (d' : D'),
        check_package_vulnerabilities (Return d') now package_id version =
        check_package_vulnerabilities (Return d) now package_id version)
  /\ (forall message,
        check_package_vulnerabilities (D := D)
          (Raise (Exn RequestException message)) now package_id version =
        Return (Error ("Failed to check vulnerabilities: " +:+ message))).
Proof.
  split; [|split; [reflexivity|reflexivity]].
  unfold check_package_vulnerabilities. cbn. eexists. split; [reflexivity|].
  cbn. split; [reflexivity|].
  do 2 case_bool_decide; cbn; split; try tauto; try congruence.
  all: intros _; discriminate.
Qed.

End MetadataFacts.

Section LatestFacts.

Import Py NuGetAPI NuGetOperations.

Context `{PackagingVersion}.

(** X5. [get_latest_compatible_version] never answers with a success
    envelope.  [_find_compatible_versions] ends without returning the list
    it built, so its caller always takes the "no compatible versions"
    branch: whenever both fetches succeed and versions exist, that message
    is the answer, whatever the registry declares. *)
Theorem get_latest_compatible_version_never_succeeds
    (versions_response : result (list string))
    (metadata_response : result detailed_index)
    (package_id target_framework : string) :
  (exists message,
     get_latest_compatible_version versions_response metadata_response
       package_id target_framework = Return (Error message))
  /\ (forall v versions metadata,
        versions_response = Return (v :: versions) ->
        metadata_response = Return metadata ->
        get_latest_compatible_version versions_response metadata_response
          package_id target_framework
        = Return (Error "No compatible versions found.")).
Proof.
  split.
  - unfold get_latest_compatible_version.
    destruct versions_response as [[|v versions]|e]; cbn; [eauto| |eauto].
    destruct metadata_response as [metadata|e]; cbn; eauto.
  - intros v versions metadata -> ->. reflexivity.
Qed.

End LatestFacts.

(** ** [get_package_versions]: order and failure *)

Section OptionalKeys.

Import Py.

Context {A : Type}.

Local Abbreviation lt_str := (fun a b : string => Return (Str.lt a b)).
Local Abbreviation up := (prod_map (@Some string) (@id A)).

Lemma insert_perm_general {K : Type} (lt : K -> K -> result bool) reverse
    (x : K * A) l r :
  insert lt reverse x l = Return r -> r ≡ₚ x :: l.
Proof.
  revert r. induction l as [|y l IH]; cbn; intros r Hr.
  - now injection Hr as <-.
  - destruct (if reverse then lt x.1 y.1 else lt y.1 x.1) as [[|]|e]; cbn in Hr;
      [|now injection Hr as <-|discriminate].
    destruct (insert lt reverse x l) as [r'|e]; cbn in Hr; [|discriminate].
    injection Hr as <-. rewrite (IH r' eq_refl). apply perm_swap.
Qed.

Lemma sort_decorated_perm_general {K : Type} (lt : K -> K -> result bool) reverse
    (l r : list (K * A)) :
  sort_decorated lt reverse l = Return r -> r ≡ₚ l.
Proof.
  revert r. induction l as [|x l IH]; cbn; intros r Hr.
  - now injection Hr as <-.
  - destruct (sort_decorated lt reverse l) as [s|e]; cbn in Hr; [|discriminate].
    apply insert_perm_general in Hr. rewrite Hr. constructor. now apply IH.
Qed.

(** With every key present, comparing optional strings is comparing
    strings. *)
Lemma insert_present reverse (x : string * A) l r :
  insert lt_str reverse x l = Return r ->
  insert lt_optional_str reverse (up x) (map up l) = Return (map up r).
Proof.
  destruct x as [kx ax]. revert r.
  induction l as [|[ky ay] l IH]; cbn; intros r Hr.
  - now injection Hr as <-.
  - destruct reverse; cbn in *.
    + destruct (Str.lt kx ky).
      * destruct (insert lt_str true (kx, ax) l) as [r'|e]; cbn in Hr;
          [|discriminate].
        injection Hr as <-. now rewrite (IH r' eq_refl).
      * now injection Hr as <-.
    + destruct (Str.lt ky kx).
      * destruct (insert lt_str false (kx, ax) l) as [r'|e]; cbn in Hr;
          [|discriminate].
        injection Hr as <-. now rewrite (IH r' eq_refl).
      * now injection Hr as <-.
Qed.

Lemma sort_decorated_present reverse (l r : list (string * A)) :
  sort_decorated lt_str reverse l = Return r ->
  sort_decorated lt_optional_str reverse (map up l) = Return (map up r).
Proof.
  revert r. induction l as [|x l IH]; cbn; intros r Hr.
  - now injection Hr as <-.
  - destruct (sort_decorated lt_str reverse l) as [s|e]; cbn in Hr; [|discriminate].
    rewrite (IH s eq_refl). cbn. now apply insert_present.
Qed.

(** Comparisons of optional strings raise nothing but [TypeError]. *)
Lemma lt_optional_str_class a b e :
  lt_optional_str a b = Raise e -> class_of e = TypeError.
Proof. destruct a, b; cbn; intros [= <-]; reflexivity. Qed.

Lemma insert_optional_class reverse (x : option string * A) l e :
  insert lt_optional_str reverse x l = Raise e -> class_of e = TypeError.
Proof.
  induction l as [|y l IH]; cbn; [discriminate|].
  destruct (if reverse then lt_optional_str x.1 y.1 else lt_optional_str y.1 x.1)
    as [[|]|e'] eqn:E; cbn.
  - destruct (insert lt_optional_str reverse x l); cbn; [discriminate|].
    intros [= <-]. now apply IH.
  - discriminate.
  - intros [= <-]. destruct reverse; eapply lt_optional_str_class; exact E.
Qed.

Lemma sort_optional_class reverse (l : list (option string * A)) e :
  sort_decorated lt_optional_str reverse l = Raise e -> class_of e = TypeError.
Proof.
  induction l as [|x l IH]; cbn; [discriminate|].
  destruct (sort_decorated lt_optional_str reverse l) as [s|e']; cbn.
  - apply insert_optional_class.
  - intros [= <-]. now apply IH.
Qed.

(** A sort that returns has met no absent key, unless there was nothing to
    compare. *)
Lemma sort_optional_returns reverse (l r : list (option string * A)) :
  sort_decorated lt_optional_str reverse l = Return r ->
  Forall (fun p => is_Some (fst p)) l \/ length l <= 1.
Proof.
  revert r. induction l as [|x l IH]; cbn; intros r Hr; [right; lia|].
  destruct (sort_decorated lt_optional_str reverse l) as [s|e] eqn:Hs;
    cbn in Hr; [|discriminate].
  pose proof (sort_decorated_perm_general _ _ _ _ Hs) as Hp.
  destruct s as [|y s].
  - apply Permutation_nil_l in Hp. subst l. right. cbn. lia.
  - left. cbn in Hr.
    assert (Hxy : is_Some x.1 /\ is_Some y.1).
    { destruct x as [[kx|] ax], y as [[ky|] ay], reverse; cbn in Hr;
        try discriminate; split; eauto. }
    constructor; [apply Hxy|].
    destruct (IH _ eq_refl) as [Hall|Hlen]; [exact Hall|].
    destruct l as [|z [|z' l]]; cbn in Hlen; try lia.
    + apply Permutation_sym, Permutation_nil_cons in Hp. contradiction.
    + apply Permutation_sym, Permutation_length_1_inv in Hp.
      injection Hp as -> ->. constructor; [apply Hxy|constructor].
Qed.

End OptionalKeys.

Section PackageVersions.

Import Py NuGetAPI NuGetOperations.

Lemma flat_map_summaries (data : registration_index) :
  flat_map (map summary_of) data = map summary_of (concat data).
Proof.
  induction data as [|page data IH]; [reflexivity|].
  cbn. now rewrite IH, map_app.
Qed.

Lemma keys_of_summaries (l : list version_summary) :
  mapM (fun x => Return (vs_version x)) l = Return (map vs_version l).
Proof. apply mapM_Return. induction l; constructor; auto. Qed.

Lemma zip_present {A : Type} (ks : list string) (l : list A) :
  zip (map Some ks) l = map (prod_map Some id) (zip ks l).
Proof.
  revert l. induction ks as [|k ks IH]; intros [|x l]; cbn; try reflexivity.
  now rewrite IH.
Qed.

Lemma summaries_present (data : registration_index) :
  versions_present data ->
  Forall (fun x => is_Some (vs_version x)) (map summary_of (concat data)).
Proof.
  unfold versions_present. intros Hp. induction Hp; cbn; constructor; auto.
Qed.

(** With every version present the sort of [get_package_versions] is the
    sort of the version strings. *)
Lemma sorted_summaries_present (l : list version_summary) :
  Forall (fun x => is_Some (vs_version x)) l ->
  sorted (fun x => Return (vs_version x)) lt_optional_str true l =
  sorted (fun x => Return (default "" (vs_version x)))
    (fun a b => Return (Str.lt a b)) true l.
Proof.
  intros Hl. unfold sorted. rewrite keys_of_summaries, bind_Return.
  rewrite (mapM_Return _ l (map (fun x => default "" (vs_version x)) l))
    by (clear; induction l; constructor; auto).
  rewrite bind_Return.
  assert (Hk : map vs_version l
               = map Some (map (fun x => default "" (vs_version x)) l)).
  { clear -Hl. induction Hl as [|x l [v Hv] _ IH]; cbn; [reflexivity|].
    rewrite IH, Hv. reflexivity. }
  rewrite Hk, zip_present.
  destruct (sort_decorated_perm Str.lt
              (zip (map (fun x => default "" (vs_version x)) l) l))
    as (s & Hs & _).
  rewrite Hs, (sort_decorated_present _ _ _ Hs), !bind_Return.
  f_equal. clear. induction s as [|[k a] s IH]; cbn; [reflexivity|].
  now rewrite IH.
Qed.

Example string_order_of_versions :
  get_package_versions
    (Return [[Samples.entry "9.0.0" []; Samples.entry "10.0.0" []; Samples.entry "2.1" []]])
    "pkg"
  = Return (Success
      {| vr_package_id := "pkg";
         vr_versions :=
           [ {| vs_version := Some "9.0.0"; vs_published := None; vs_downloads := 0 |};
             {| vs_version := Some "2.1"; vs_published := None; vs_downloads := 0 |};
             {| vs_version := Some "10.0.0"; vs_published := None; vs_downloads := 0 |} ] |}).
Proof. vm_compute. reflexivity. Qed.

Lemma get_package_versions_present
    (data : registration_index) (package_id : string) :
  versions_present data ->
  exists l,
    get_package_versions (Return data) package_id =
    Return (Success {| vr_package_id := package_id; vr_versions := l |})
    /\ l ≡ₚ map summary_of (concat data)
    /\ StronglySorted summary_ge l.
Proof.
  intros Hp. pose proof (summaries_present data Hp) as Hall.
  unfold get_package_versions.
  rewrite bind_Return, flat_map_summaries, (sorted_summaries_present _ Hall).
  destruct (sorted_reverse_spec Str.lt
              (fun x : version_summary => Return (default "" (vs_version x)))
              (map summary_of (concat data))
              (map (fun x => default "" (vs_version x)) (map summary_of (concat data))))
    as (l & Hl & Hperm & Hsorted).
  { clear. induction (map summary_of (concat data)); constructor; auto. }
  exists l. rewrite Hl, bind_Return.
  split; [reflexivity|]. split; [exact Hperm|].
  specialize (Hsorted str_lt_asym str_lt_negtrans).
  assert (Hall' : Forall (fun x => is_Some (vs_version x)) l) by now rewrite Hperm.
  clear -Hsorted Hall'.
  induction Hsorted as [|a l _ IH Ha]; constructor.
  - apply IH. now inversion Hall'.
  - inversion Hall' as [|? ? [x Hx] Hrest]; subst.
    rewrite Forall_forall in *. intros b Hb.
    destruct (Hrest b Hb) as [y Hy].
    destruct (Ha b Hb) as (ka & kb & [= <-] & [= <-] & Hlt).
    exists x, y. rewrite Hx, Hy in Hlt. auto.
Qed.

(** X6. On a fetched catalog whose records all carry a version string,
    [get_package_versions] answers with a success envelope listing every
    record once, in descending order of the version strings compared as
    plain strings (so "9.0.0" comes before "10.0.0"), not as versions. *)
Theorem get_package_versions_string_order
    (data : registration_index) (package_id : string) :
  versions_present data ->
  exists l,
    get_package_versions (Return data) package_id =
    Return (Success {| vr_package_id := package_id; vr_versions := l |})
    /\ l ≡ₚ map summary_of (concat data)
    /\ StronglySorted summary_ge l
    /\ Str.lt "10.0.0" "9.0.0" = true.
Proof.
  intros Hp.
  destruct (get_package_versions_present data package_id Hp)
    as (l & Hl & Hperm & Hsorted).
  exists l. auto.
Qed.

Lemma get_package_versions_string_order_witness :
  versions_present Samples.unrelated_catalog
  /\ exists l,
      get_package_versions (Return Samples.unrelated_catalog) "pkg" =
      Return (Success {| vr_package_id := "pkg"; vr_versions := l |})
      /\ l ≡ₚ map summary_of (concat Samples.unrelated_catalog)
      /\ StronglySorted summary_ge l
      /\ Str.lt "10.0.0" "9.0.0" = true.
Proof.
  split; [exact unrelated_versions_present|].
  exact (get_package_versions_string_order Samples.unrelated_catalog "pkg"
           unrelated_versions_present).
Defined.

(** X7. On a fetched catalog [get_package_versions] raises exactly when the
    catalog has two or more records and one of them lacks its version; the
    exception is then a [TypeError], which no handler of the function
    names. *)
Theorem get_package_versions_raises_iff
    (data : registration_index) (package_id : string) :
  ((exists e, get_package_versions (Return data) package_id = Raise e) <->
   (2 <= length (concat data)
    /\ Exists (fun r => version r = None) (concat data)))
  /\ (forall e, get_package_versions (Return data) package_id = Raise e ->
        class_of e = TypeError).
Proof.
  assert (Hrun : forall e,
            get_package_versions (Return data) package_id = Raise e ->
            sort_decorated lt_optional_str true
              (zip (map vs_version (map summary_of (concat data)))
                   (map summary_of (concat data))) = Raise e).
  { intros e. unfold get_package_versions.
    rewrite bind_Return, flat_map_summaries. unfold sorted.
    rewrite keys_of_summaries, bind_Return.
    destruct (sort_decorated _ _ _) as [s|e']; cbn; [discriminate|].
    destruct (class_of e'); cbn; congruence. }
  assert (Hclass : forall e,
            get_package_versions (Return data) package_id = Raise e ->
            class_of e = TypeError).
  { intros e He. eapply sort_optional_class. exact (Hrun e He). }
  split; [|exact Hclass]. split.
  - intros [e He].
    destruct (decide (Forall (fun r => is_Some (version r)) (concat data)))
      as [Hall|Hnot].
    { destruct (get_package_versions_present data package_id Hall)
        as (l & Hl & _). congruence. }
    apply not_Forall_Exists in Hnot; [|apply _].
    split.
    + destruct (concat data) as [|x [|y l]] eqn:E; cbn; [| |lia].
      * inversion Hnot.
      * apply Hrun in He. cbn in He. discriminate.
    + eapply Exists_impl; [exact Hnot|]. cbn. intros r Hr.
      destruct (version r); [exfalso; eauto|reflexivity].
  - intros [Hlen Hex].
    destruct (get_package_versions (Return data) package_id) as [r|e] eqn:E;
      [exfalso|eauto].
    revert E. unfold get_package_versions.
    rewrite bind_Return, flat_map_summaries. unfold sorted.
    rewrite keys_of_summaries, bind_Return.
    destruct (sort_decorated _ _ _) as [s|e'] eqn:Hs; cbn.
    + intros _. apply sort_optional_returns in Hs as [Hall|Hone].
      * apply Exists_exists in Hex as (r' & Hr' & Hnone).
        rewrite Forall_forall in Hall.
        assert (Hin : (version r', summary_of r')
                      ∈ zip (map vs_version (map summary_of (concat data)))
                            (map summary_of (concat data))).
        { clear -Hr'. induction (concat data) as [|a l IH]; [inversion Hr'|].
          cbn. apply elem_of_cons in Hr' as [->|Hr']; [left|right; auto]. }
        destruct (Hall _ Hin) as [v Hv]. cbn in Hv. congruence.
      * rewrite length_zip, !length_map in Hone. lia.
    + apply sort_optional_class in Hs. rewrite Hs. discriminate.
Qed.

End PackageVersions.

(** ** What the framework table amounts to *)

Section FrameworkFamily.

Import Py NuGetAPI.

Lemma table_lists_in_chain :
  Forall (fun row => Forall (fun f => f ∈ full_chain) (snd row)) FRAMEWORK_COMPATIBILITY.
Proof. apply (bool_decide_unpack _). vm_compute. exact I. Qed.

Lemma chain_row : ("netstandard2.0", full_chain) ∈ FRAMEWORK_COMPATIBILITY.
Proof. apply (bool_decide_unpack _). vm_compute. exact I. Qed.

Lemma chain_normalized :
  Forall (fun f => _normalize_framework f = f) full_chain.
Proof. repeat constructor. Qed.

(** X8. The keys of the table play no role and its rows add up to one
    family: the check passes exactly on a direct match, or when the
    normalised target is one of [net20] ... [net48] and the package supports
    any identifier of that list, older or newer.  Hence a target outside the
    list (a [netstandard] or [net6.0] target, say) passes by direct match
    only, and any two identifiers of the list are compatible in both
    directions. *)
Theorem is_framework_compatible_family (target : string) (supported : gset string) :
  (_is_framework_compatible target supported = true <->
   (_normalize_framework target ∈ supported
    \/ (_normalize_framework target ∈ full_chain
        /\ exists f, f ∈ full_chain /\ f ∈ supported)))
  /\ (_normalize_framework target ∉ full_chain ->
      (_is_framework_compatible target supported = true <->
       _normalize_framework target ∈ supported))
  /\ (forall a b, a ∈ full_chain -> b ∈ full_chain ->
        _is_framework_compatible a {[ b ]} = true
        /\ _is_framework_compatible b {[ a ]} = true).
Proof.
  assert (Hfamily : forall t S,
            _is_framework_compatible t S = true <->
            (_normalize_framework t ∈ S
             \/ (_normalize_framework t ∈ full_chain
                 /\ exists f, f ∈ full_chain /\ f ∈ S))).
  { intros t S. unfold _is_framework_compatible.
    destruct (bool_decide (_normalize_framework t ∈ S)) eqn:E.
    - apply bool_decide_eq_true in E. split; [intros _; now left|reflexivity].
    - apply bool_decide_eq_false in E. rewrite mapping_loop_iff. split.
      + intros (k & l & Hrow & Ht & f & Hf & HfS). right.
        pose proof table_lists_in_chain as Hall.
        rewrite Forall_forall in Hall. specialize (Hall _ Hrow). cbn in Hall.
        rewrite Forall_forall in Hall. split; [now apply Hall|].
        exists f. split; [now apply Hall|exact HfS].
      + intros [Hd|(Ht & f & Hf & HfS)]; [contradiction|].
        exists "netstandard2.0", full_chain.
        split; [exact chain_row|]. split; [exact Ht|]. eauto. }
  split; [apply Hfamily|]. split.
  - intros Hout. rewrite Hfamily. split; [|auto].
    intros [Hd|[Hin _]]; [exact Hd|contradiction].
  - assert (Hone : forall a b, a ∈ full_chain -> b ∈ full_chain ->
                     _is_framework_compatible a {[ b ]} = true).
    { intros a b Ha Hb. apply Hfamily. right.
      pose proof chain_normalized as Hn. rewrite Forall_forall in Hn.
      rewrite (Hn a Ha). split; [exact Ha|].
      exists b. split; [exact Hb|set_solver]. }
    intros a b Ha Hb. split; now apply Hone.
Qed.

End FrameworkFamily.

Section MissingVersion.

Import Py NuGetAPI.

Context `{PackagingVersion}.





End MissingVersion.

Section MissingVersionRun.

Import Py NuGetAPI.



End MissingVersionRun.

(** ** The search client *)

Section SearchFacts.

Import Py GoogleSearchAPI GoogleSearchOperations.

Lemma fold_add_item items acc :
  fold_left add_item items acc = acc ++ map result_of_item items.
Proof.
  revert acc. induction items as [|item items IH]; intros acc; cbn.
  - now rewrite app_nil_r.
  - rewrite IH. unfold add_item. now rewrite <- List.app_assoc.
Qed.

(** What [search] does, by the outcome of its one call. *)
Lemma search_run (srv : service) query num_results log :
  search srv query num_results log =
  (match srv log {| call_q := query; call_num := clamp num_results |} with
   | Return response =>
       Return (Success {| total_results := resp_totalResults response;
                          results := map result_of_item (resp_items response) |})
   | Raise e =>
       Return (Error ((if only HttpError (class_of e)
                       then "Google Search API error: "
                       else "Error performing search: ") +:+ str e))
   end,
   log ++ [ {| call_q := query; call_num := clamp num_results |} ]).
Proof.
  unfold search, io_try_except, execute, clamp, mbind, io_bind, mret, io_ret.
  cbv beta zeta.
  destruct (srv log _) as [response|e]; cbn -[fold_left].
  - now rewrite fold_add_item.
  - destruct (class_of e); reflexivity.
Qed.

Lemma clamp_bounds n : (1 <= clamp n <= 10)%Z.
Proof. unfold clamp. lia. Qed.

Lemma clamp_idem n : clamp (clamp n) = clamp n.
Proof. unfold clamp. lia. Qed.

(** X10. Whatever number of results is asked for, [search] makes exactly one
    call to the service, asking for a number between 1 and 10 (the request
    moved into that range), and it returns an envelope: no failure of the
    service reaches the caller.  Asking for a number outside the range is
    the same as asking for the nearest bound. *)
Theorem search_one_bounded_call (srv : service) (query : string)
    (num_results : Z) (log : list call) :
  (exists answer,
     search srv query num_results log =
     (Return answer, log ++ [ {| call_q := query; call_num := clamp num_results |} ]))
  /\ (1 <= clamp num_results <= 10)%Z
  /\ ((1 <= num_results <= 10)%Z -> clamp num_results = num_results)
  /\ search srv query num_results log = search srv query (clamp num_results) log.
Proof.
  split; [|split; [apply clamp_bounds|split]].
  - rewrite search_run. destruct (srv log _); eauto.
  - unfold clamp. lia.
  - now rewrite !search_run, clamp_idem.
Qed.

(** X11. The three outcomes of [search]: an answer of the service becomes a
    success envelope with one result per item, in order, every missing
    title, link or snippet read as the empty string; an [HttpError] and any
    other exception become error envelopes with their own message
    prefixes. *)
Theorem search_outcomes (srv : service) (query : string)
    (num_results : Z) (log : list call) :
  let c := {| call_q := query; call_num := clamp num_results |} in
  (forall response, srv log c = Return response ->
     fst (search srv query num_results log) =
     Return (Success {| total_results := resp_totalResults response;
                        results := map result_of_item (resp_items response) |})
     /\ length (map result_of_item (resp_items response))
        = length (resp_items response))
  /\ (forall message, srv log c = Raise (Exn HttpError message) ->
        fst (search srv query num_results log) =
        Return (Error ("Google Search API error: " +:+ message)))
  /\ (forall e, srv log c = Raise e -> class_of e <> HttpError ->
        fst (search srv query num_results log) =
        Return (Error ("Error performing search: " +:+ str e))).
Proof.
  cbn zeta. rewrite search_run. split; [|split].
  - intros response ->. split; [reflexivity|apply length_map].
  - intros message ->. reflexivity.
  - intros e -> Hc. cbn. destruct (class_of e); try reflexivity. congruence.
Qed.

End SearchFacts.

(** ** Substrings *)

Section ContainsFacts.

Import Str.

Lemma prefix_iff sub s :
  String.prefix sub s = true <-> exists post, s = sub +:+ post.
Proof.
  revert s. induction sub as [|c sub IH]; intros s.
  - split; [intros _; exists s; reflexivity|]. intros _. now destruct s.
  - destruct s as [|b s]; cbn.
    + split; [discriminate|]. intros [post Hp]. rewrite str_app_cons in Hp.
      discriminate.
    + destruct (ascii_dec c b) as [->|Hne].
      * rewrite IH. split; intros [post Hp]; exists post.
        -- now rewrite str_app_cons, Hp.
        -- rewrite str_app_cons in Hp. now injection Hp.
      * split; [discriminate|]. intros [post Hp]. rewrite str_app_cons in Hp.
        injection Hp as Hb _. congruence.
Qed.

(** [sub in s] holds exactly when [s] can be cut around an occurrence of
    [sub]. *)
Lemma contains_iff sub s :
  contains sub s = true <-> exists pre post, s = pre +:+ sub +:+ post.
Proof.
  induction s as [|c s IH]; cbn [contains]; rewrite orb_true_iff, prefix_iff.
  - split.
    + intros [[post Hp]|Hf]; [|discriminate]. exists "", post. exact Hp.
    + intros (pre & post & Hp). left. destruct pre as [|a pre].
      * exists post. exact Hp.
      * rewrite str_app_cons in Hp. discriminate.
  - rewrite IH. split.
    + intros [[post Hp]|(pre & post & Hp)].
      * exists "", post. exact Hp.
      * exists (String c pre), post. now rewrite str_app_cons, Hp.
    + intros (pre & post & Hp). destruct pre as [|a pre].
      * left. exists post. exact Hp.
      * right. rewrite str_app_cons in Hp. injection Hp as _ Hp. eauto.
Qed.

(** A text that contains [a ++ b] contains [b]. *)
Lemma contains_suffix_part a b s :
  contains (a +:+ b) s = true -> contains b s = true.
Proof.
  rewrite !contains_iff. intros (pre & post & ->).
  exists (pre +:+ a), post. now rewrite !str_app_assoc.
Qed.

End ContainsFacts.

(** ** Compatibility evidence *)

Section CompatibilityEvidence.

Import Py GoogleSearchAPI GoogleSearchOperations.

Lemma fold_check_result package_name target_framework results info :
  fold_left (check_result package_name target_framework) results info =
  {| ci_is_compatible :=
       ci_is_compatible info
       || existsb (is_evidence package_name target_framework) results;
     ci_evidence :=
       ci_evidence info ++
       map excerpt_of
         (filter (fun r => is_evidence package_name target_framework r = true) results);
     ci_recommendations :=
       ci_recommendations info ++
       map excerpt_of
         (filter (fun r => is_recommendation package_name target_framework r = true)
            results) |}.
Proof.
  revert info. induction results as [|r results IH]; intros info; cbn [fold_left].
  - cbn. rewrite orb_false_r, !app_nil_r. now destruct info.
  - rewrite IH. cbn [existsb]. rewrite !(filter_cons _ r).
    unfold check_result, is_evidence, is_recommendation.
    destruct (mentions _ _ _); cbn [andb].
    + destruct (indicated _), (recommended _); cbn;
        rewrite ?decide_True by reflexivity;
        rewrite ?decide_False by discriminate;
        cbn; rewrite <- ?List.app_assoc, ?orb_true_r; reflexivity.
    + rewrite !decide_False by discriminate. reflexivity.
Qed.

(** X12. [_extract_compatibility_info] keeps, in order, the link and snippet
    of every result whose lower-cased text mentions the package and the
    target and holds one of the four indicator phrases (evidence),
    respectively "recommend" or "suggest" (recommendations); it reports
    compatibility exactly when there is evidence. *)
Theorem extract_compatibility_info_exact
    (results : list search_result) (package_name target_framework : string) :
  let info := _extract_compatibility_info results package_name target_framework in
  ci_evidence info =
    map excerpt_of
      (filter (fun r => is_evidence package_name target_framework r = true) results)
  /\ ci_recommendations info =
       map excerpt_of
         (filter (fun r => is_recommendation package_name target_framework r = true)
            results)
  /\ ci_is_compatible info = existsb (is_evidence package_name target_framework) results
  /\ (ci_is_compatible info = true <-> ci_evidence info <> []).
Proof.
  cbn zeta. unfold _extract_compatibility_info. rewrite fold_check_result.
  cbn [ci_evidence ci_recommendations ci_is_compatible app orb].
  split; [reflexivity|]. split; [reflexivity|]. split; [reflexivity|].
  induction results as [|r results IH]; cbn [existsb].
  - split; [discriminate|]. intros Hne. now contradiction Hne.
  - rewrite (filter_cons _ r).
    destruct (is_evidence package_name target_framework r) eqn:E.
    + rewrite decide_True by reflexivity. cbn. split; [discriminate|reflexivity].
    + rewrite decide_False by discriminate. exact IH.
Qed.

(** X13. Evidence accumulates: on two lists of results one after the other,
    the evidence and the recommendations are those of the first followed by
    those of the second, and compatibility is reported when either list
    gives it.  A later result never withdraws compatibility. *)
Theorem extract_compatibility_info_app
    (first second : list search_result) (package_name target_framework : string) :
  let all := _extract_compatibility_info (first ++ second) package_name target_framework in
  let a := _extract_compatibility_info first package_name target_framework in
  let b := _extract_compatibility_info second package_name target_framework in
  ci_evidence all = ci_evidence a ++ ci_evidence b
  /\ ci_recommendations all = ci_recommendations a ++ ci_recommendations b
  /\ ci_is_compatible all = ci_is_compatible a || ci_is_compatible b.
Proof.
  cbn zeta. unfold _extract_compatibility_info. rewrite !fold_check_result.
  cbn [ci_evidence ci_recommendations ci_is_compatible app orb].
  rewrite !filter_app, !map_app, existsb_app. auto.
Qed.

(** X14. The indicator phrases are looked for as substrings, so a negated
    word counts: a result that mentions the package and the target and
    says "incompatible" or "unsupported" is taken as evidence of
    compatibility. *)
Theorem negated_indicator_counts_as_evidence
    (results : list search_result) (package_name target_framework : string)
    (r : search_result) :
  r ∈ results ->
  mentions package_name target_framework (Str.lower (text_of r)) = true ->
  Str.contains "incompatible" (Str.lower (text_of r)) = true
  \/ Str.contains "unsupported" (Str.lower (text_of r)) = true ->
  let info := _extract_compatibility_info results package_name target_framework in
  ci_is_compatible info = true /\ excerpt_of r ∈ ci_evidence info.
Proof.
  intros Hr Hm Hneg. cbn zeta.
  unfold _extract_compatibility_info. rewrite fold_check_result.
  cbn [ci_evidence ci_is_compatible app orb].
  assert (He : is_evidence package_name target_framework r = true).
  { unfold is_evidence. rewrite Hm. cbn [andb]. unfold indicated, indicators.
    cbn [existsb]. destruct Hneg as [Hneg|Hneg].
    - rewrite (contains_suffix_part "in" "compatible" _ Hneg). reflexivity.
    - rewrite (contains_suffix_part "un" "supported" _ Hneg).
      now rewrite orb_true_r. }
  split.
  - apply existsb_exists. exists r. split; [|exact He].
    now apply list_elem_of_In.
  - apply list_elem_of_In, in_map.
    apply list_elem_of_In, list_elem_of_filter. auto.
Qed.

End CompatibilityEvidence.

(** ** What a match looks like *)

Section MatchShapes.

Import Str Re GoogleSearchAPI.

Lemma digits_inv k lo hi s m :
  digits k lo hi s = Some m ->
  exists d rest m',
    s = d +:+ rest /\ m = d +:+ m' /\ all is_digit d = true
    /\ lo <= String.length d
    /\ (forall h, hi = Some h -> String.length d <= h)
    /\ k rest = Some m'.
Proof.
  revert lo hi m. induction s as [|c s IH]; intros lo hi m; cbn [digits].
  - destruct lo; [|discriminate]. intros Hk.
    exists "", "", m. cbn. repeat split; auto; lia.
  - assert (Hstop : match lo with 0 => k (String c s) | S _ => None end = Some m ->
              exists d rest m',
                String c s = d +:+ rest /\ m = d +:+ m' /\ all is_digit d = true
                /\ lo <= String.length d
                /\ (forall h, hi = Some h -> String.length d <= h)
                /\ k rest = Some m').
    { destruct lo; [|discriminate]. intros Hk.
      exists "", (String c s), m. cbn. repeat split; auto; lia. }
    destruct (is_digit c && may_take hi) eqn:E; [|exact Hstop].
    destruct (digits k (pred lo) (pred <$> hi) s) as [m1|] eqn:E1; [|exact Hstop].
    intros [= <-]. apply andb_true_iff in E as [Hc Hhi].
    apply IH in E1 as (d & rest & m' & -> & -> & Hd & Hlo & Hbound & Hk).
    exists (String c d), rest, m'. rewrite !str_app_cons. cbn [all String.length].
    rewrite Hc, Hd. repeat split; auto; [lia|].
    intros h ->. destruct h as [|h]; [discriminate|].
    specialize (Hbound h eq_refl). lia.
Qed.

Lemma lit_inv c p s m :
  match_here (Lit c :: p) s = Some m ->
  exists s' m', s = String c s' /\ m = String c m' /\ match_here p s' = Some m'.
Proof.
  cbn [match_here]. destruct s as [|c' s]; [discriminate|].
  destruct (Ascii.eqb_spec c c') as [<-|]; [|discriminate].
  destruct (match_here p s) as [m'|] eqn:E; [|discriminate].
  intros [= <-]. eauto.
Qed.

(** Every element of a scan is the match of the pattern somewhere. *)
Lemma scan_elem p skip s m :
  m ∈ scan p skip s -> exists s', match_here p s' = Some m.
Proof.
  revert skip. induction s as [|c s IH]; intros skip; cbn [scan].
  - destruct skip; [|intros H; inversion H].
    destruct (match_here p "") as [m0|] eqn:E; [|intros H; inversion H].
    intros H. apply list_elem_of_singleton in H as ->. eauto.
  - destruct skip as [|n]; [|apply IH].
    destruct (match_here p (String c s)) as [m0|] eqn:E; [|apply IH].
    intros H. apply elem_of_cons in H as [->|H]; [eauto|]. eapply IH, H.
Qed.

Lemma match_here_digits lo hi p s :
  match_here (Digits lo hi :: p) s = digits (match_here p) lo hi s.
Proof. reflexivity. Qed.

Lemma number_intro s : all is_digit s = true -> 1 <= String.length s -> number s = true.
Proof.
  intros Hd Hl. unfold number. rewrite Hd. destruct s; [cbn in Hl; lia|reflexivity].
Qed.

(** A match of the three-component pattern is three numbers joined by
    dots. *)
Lemma three_component_shape s m :
  match_here three_component s = Some m ->
  exists x y z, m = x +:+ String "." (y +:+ String "." z)
                /\ number x = true /\ number y = true /\ number z = true.
Proof.
  unfold three_component. intros Hm. rewrite match_here_digits in Hm.
  apply digits_inv in Hm as (x & r1 & m1 & _ & -> & Hx & Hlx & _ & Hm).
  apply lit_inv in Hm as (r2 & m2 & _ & -> & Hm). rewrite match_here_digits in Hm.
  apply digits_inv in Hm as (y & r3 & m3 & _ & -> & Hy & Hly & _ & Hm).
  apply lit_inv in Hm as (r4 & m4 & _ & -> & Hm). rewrite match_here_digits in Hm.
  apply digits_inv in Hm as (z & r5 & m5 & _ & -> & Hz & Hlz & _ & Hm).
  injection Hm as <-. rewrite str_app_nil_r.
  exists x, y, z. split; [reflexivity|]. auto using number_intro.
Qed.

(** A match of the CVE pattern: "CVE-", four digits, a dash, four to seven
    digits. *)
Lemma cve_shape s m :
  match_here cve_pattern s = Some m ->
  exists year number,
    m = "CVE-" +:+ year +:+ "-" +:+ number
    /\ all is_digit year = true /\ String.length year = 4
    /\ all is_digit number = true
    /\ 4 <= String.length number <= 7.
Proof.
  unfold cve_pattern. intros Hm.
  apply lit_inv in Hm as (r1 & m1 & _ & -> & Hm).
  apply lit_inv in Hm as (r2 & m2 & _ & -> & Hm).
  apply lit_inv in Hm as (r3 & m3 & _ & -> & Hm).
  apply lit_inv in Hm as (r4 & m4 & _ & -> & Hm). rewrite match_here_digits in Hm.
  apply digits_inv in Hm as (year & r5 & m5 & _ & -> & Hy & Hly & Hhy & Hm).
  apply lit_inv in Hm as (r6 & m6 & _ & -> & Hm). rewrite match_here_digits in Hm.
  apply digits_inv in Hm as (num & r7 & m7 & _ & -> & Hn & Hln & Hhn & Hm).
  injection Hm as <-. rewrite str_app_nil_r.
  exists year, num. split; [reflexivity|].
  specialize (Hhy 4 eq_refl). specialize (Hhn 7 eq_refl).
  repeat split; auto; lia.
Qed.

End MatchShapes.

(** ** The form of what the miner reports *)

Section ReportedForms.

Import Str Py Re GoogleSearchAPI.

Lemma not_ahead_inv c s m : match_here [NotAhead c] s = Some m -> m = "".
Proof.
  cbn [match_here]. destruct s as [|c' s]; [now intros [= <-]|].
  destruct (Ascii.eqb c c'); [discriminate|now intros [= <-]].
Qed.

Lemma two_component_shape s m :
  match_here two_component s = Some m ->
  exists x y, m = x +:+ String "." y /\ number x = true /\ number y = true.
Proof.
  unfold two_component. intros Hm. rewrite match_here_digits in Hm.
  apply digits_inv in Hm as (x & r1 & m1 & _ & -> & Hx & Hlx & _ & Hm).
  apply lit_inv in Hm as (r2 & m2 & _ & -> & Hm). rewrite match_here_digits in Hm.
  apply digits_inv in Hm as (y & r3 & m3 & _ & -> & Hy & Hly & _ & Hm).
  apply not_ahead_inv in Hm as ->. rewrite str_app_nil_r.
  exists x, y. split; [reflexivity|]. auto using number_intro.
Qed.

(** X15. Every token in the answer of [extract_versions] has two or three
    components: it is [x.y] or [x.y.z] for non-empty runs of digits [x],
    [y], [z].  Nothing else (a bare number, a four-component version as a
    whole, a pre-release suffix) is ever reported. *)
Theorem extract_versions_token_form
    (results : list search_result) (package_name target_framework : string) :
  exists l,
    extract_versions results package_name target_framework = Return l
    /\ forall v, v ∈ l ->
         exists x y, number x = true /\ number y = true
           /\ (v = x +:+ "." +:+ y
               \/ exists z, number z = true /\ v = x +:+ "." +:+ y +:+ "." +:+ z).
Proof.
  destruct (extract_versions_run results package_name target_framework)
    as (l & Hl & Hin & _).
  exists l. split; [exact Hl|]. intros v Hv.
  apply Hin in Hv as (r & _ & _ & [Hv|Hv]).
  - apply scan_elem in Hv as [s' Hm].
    apply three_component_shape in Hm as (x & y & z & -> & Hx & Hy & Hz).
    exists x, y. split; [exact Hx|]. split; [exact Hy|]. right.
    exists z. split; [exact Hz|reflexivity].
  - apply scan_elem in Hv as [s' Hm].
    apply two_component_shape in Hm as (x & y & -> & Hx & Hy).
    exists x, y. split; [exact Hx|]. split; [exact Hy|]. now left.
Qed.

Lemma flat_map_nil_iff {A B : Type} (f : A -> list B) (l : list A) :
  flat_map f l = [] <-> forall x, x ∈ l -> f x = [].
Proof.
  induction l as [|a l IH]; cbn.
  - split; [|reflexivity]. intros _ x Hx. inversion Hx.
  - split.
    + intros [Ha Hl]%app_eq_nil x Hx.
      apply elem_of_cons in Hx as [->|Hx]; [exact Ha|]. now apply IH.
    + intros Hall. rewrite (Hall a) by left. cbn. apply IH.
      intros x Hx. apply Hall. now right.
Qed.

(** X16. [_extract_vulnerability_info] sets [has_vulnerabilities] exactly
    when the text of some result holds a match of the CVE pattern, and
    every identifier it reports reads "CVE-", four digits, a dash, four to
    seven digits: between 13 and 16 characters.  The package name and the
    version it is given are not consulted. *)
Theorem extract_vulnerability_info_flag
    (results : list search_result) (package_name version : string) :
  let info := _extract_vulnerability_info results package_name version in
  (has_vulnerabilities info = true <->
   exists r, r ∈ results /\ findall cve_pattern (text_of r) <> [])
  /\ (forall v, v ∈ vulnerabilities info ->
        exists year number,
          v_id v = "CVE-" +:+ year +:+ "-" +:+ number
          /\ all is_digit year = true /\ String.length year = 4
          /\ all is_digit number = true /\ 4 <= String.length number <= 7
          /\ 13 <= String.length (v_id v) <= 16)
  /\ (forall package_name' version',
        _extract_vulnerability_info results package_name' version' = info).
Proof.
  cbn zeta. unfold _extract_vulnerability_info.
  cbn [has_vulnerabilities vulnerabilities].
  rewrite fold_collect_vulnerabilities. cbn [app].
  split; [|split; [|reflexivity]].
  - set (l := flat_map _ results).
    assert (Hl : l = [] <-> forall r, r ∈ results ->
                   findall cve_pattern (text_of r) = []).
    { unfold l. rewrite flat_map_nil_iff. split; intros Hall r Hr.
      - specialize (Hall r Hr). now destruct (findall cve_pattern (text_of r)).
      - now rewrite (Hall r Hr). }
    split.
    + intros Hpos. destruct l as [|v l'] eqn:El; [discriminate|].
      destruct (decide (Exists (fun r => findall cve_pattern (text_of r) <> []) results))
        as [Hex|Hnot].
      * apply Exists_exists in Hex. exact Hex.
      * exfalso. assert (Hnil : v :: l' = []); [|discriminate].
        apply Hl. intros r Hr.
        destruct (findall cve_pattern (text_of r)) eqn:Ef; [reflexivity|].
        exfalso. apply Hnot, Exists_exists. exists r. split; [exact Hr|].
        rewrite Ef. discriminate.
    + intros (r & Hr & Hne). destruct l as [|v l'] eqn:El; [|reflexivity].
      exfalso. apply Hne. now apply Hl.
  - intros v Hv. apply list_elem_of_In, in_flat_map in Hv as (r & _ & Hv).
    apply in_map_iff in Hv as (cve & <- & Hcve). cbn [v_id record_of].
    apply list_elem_of_In, scan_elem in Hcve as [s' Hm].
    apply cve_shape in Hm as (year & num & -> & Hy & Hly & Hn & Hln).
    assert (Hlen : String.length ("CVE-" +:+ year +:+ "-" +:+ num)
                   = 5 + String.length year + String.length num).
    { rewrite !str_length_app. cbn [String.length]. lia. }
    exists year, num. repeat split; auto; lia.
Qed.

End ReportedForms.

(** ** The latest version *)

Section MaxFacts.

Import Py NuGetOperations.

Context {A K : Type} (key : A -> result K) (lt : K -> K -> bool).

Hypothesis lt_asym : forall a b, lt a b = true -> lt b a = false.
Hypothesis lt_negtrans :
  forall a b c, lt a b = false -> lt b c = false -> lt a c = false.




End MaxFacts.

Section LatestVersion.

Import Str Py Re GoogleSearchAPI GoogleSearchOperations.








Context `{SetIteration}.






End LatestVersion.

(** ** Reports *)

Section ReportFacts.

Import Py GoogleSearchAPI GoogleSearchOperations.

Context `{SetIteration}.


Lemma search_failed (srv : service) query num_results log :
  (exists e, srv log {| call_q := query; call_num := clamp num_results |} = Raise e) ->
  exists message,
    search srv query num_results log =
    (Return (Error message),
     log ++ [ {| call_q := query; call_num := clamp num_results |} ]).
Proof. intros [e He]. rewrite search_run, He. eauto. Qed.

Lemma io_bind_run {A B : Type} (m : io A) (f : A -> io B) log a log' :
  m log = (Return a, log') -> (m ≫= f) log = f a log'.
Proof. intros Hm. unfold mbind, io_bind. now rewrite Hm. Qed.


(** X19. Failures of the service are absorbed by [search], so when every
    call fails [check_package_compatibility] still answers with status
    "success": the report says not compatible, no evidence, no
    vulnerabilities, latest version "unknown". *)
Theorem check_package_compatibility_all_searches_fail
    (srv : service) (now package_name current_version target_framework : string)
    (log : list call) :
  (forall log c, exists e, srv log c = Raise e) ->
  fst (check_package_compatibility srv now package_name current_version
         target_framework log) =
  Return (Success
    {| cr_package_name := package_name;
       cr_current_version := current_version;
       cr_target_framework := target_framework;
       cr_compatibility :=
         {| ci_is_compatible := false; ci_evidence := []; ci_recommendations := [] |};
       cr_vulnerabilities := {| has_vulnerabilities := false; vulnerabilities := [] |};
       cr_latest_version := "unknown";
       cr_last_checked := now |}).
Proof.
  intros Hfail.
  unfold check_package_compatibility, io_try_except. cbv zeta.
  match goal with
  | |- context [search srv ?q 5 ≫= _] =>
      destruct (search_failed srv q 5 log (Hfail _ _)) as [m1 H1]
  end.
  rewrite (io_bind_run _ _ _ _ _ H1).
  match goal with
  | |- context [(search srv ?q 5 ≫= _) ?l] =>
      destruct (search_failed srv q 5 l (Hfail _ _)) as [m2 H2]
  end.
  rewrite (io_bind_run _ _ _ _ _ H2).
  match goal with
  | |- context [(search srv ?q 3 ≫= _) ?l] =>
      destruct (search_failed srv q 3 l (Hfail _ _)) as [m3 H3]
  end.
  rewrite (io_bind_run _ _ _ _ _ H3).
  reflexivity.
Qed.

End ReportFacts.

(** ** Ascending sorts *)

Section AscendingSort.

Import Py.

Context {A K : Type} (ltb : K -> K -> bool).

Local Abbreviation lt := (fun a b : K => Return (ltb a b)).

Hypothesis ltb_asym : forall a b, ltb a b = true -> ltb b a = false.
Hypothesis ltb_negtrans :
  forall a b c, ltb a b = false -> ltb b c = false -> ltb a c = false.

Lemma insert_ascending (x : K * A) l r :
  StronglySorted (fun p q => ltb q.1 p.1 = false) l ->
  insert lt false x l = Return r ->
  StronglySorted (fun p q => ltb q.1 p.1 = false) r.
Proof.
  revert r. induction l as [|y l IH]; cbn; intros r Hs Hr.
  - injection Hr as <-. repeat constructor.
  - apply StronglySorted_inv in Hs as [Hs Hy].
    destruct (ltb y.1 x.1) eqn:E.
    + destruct (insert lt false x l) as [r'|e] eqn:Hr'; cbn in Hr; [|discriminate].
      injection Hr as <-.
      constructor; [now apply IH|].
      rewrite (insert_perm_general _ _ _ _ _ Hr'). constructor; [|exact Hy].
      now apply ltb_asym.
    + injection Hr as <-. constructor; [now constructor|].
      constructor; [exact E|].
      eapply Forall_impl; [exact Hy|].
      intros z Hz. cbn in *. eauto.
Qed.

Lemma sort_decorated_ascending (l r : list (K * A)) :
  sort_decorated lt false l = Return r ->
  StronglySorted (fun p q => ltb q.1 p.1 = false) r.
Proof.
  revert r. induction l as [|x l IH]; cbn; intros r Hr.
  - injection Hr as <-. constructor.
  - destruct (sort_decorated lt false l) as [s|e]; cbn in Hr; [|discriminate].
    eapply insert_ascending; [|exact Hr]. now apply IH.
Qed.

End AscendingSort.

Section AscendingStrings.

Import Py.

(** [sorted(l)] on distinct strings: the same strings, each one smaller than
    all that follow it. *)
Lemma sorted_str_ascending_spec l :
  NoDup l ->
  exists r, sorted_str false l = Return r /\ r ≡ₚ l
            /\ StronglySorted (fun a b => Str.lt a b = true) r.
Proof.
  intros Hnd. unfold sorted_str, sorted.
  rewrite (mapM_Return _ l l) by (clear; induction l; constructor; auto).
  rewrite bind_Return.
  destruct (sort_decorated (fun a b => Return (Str.lt a b)) false (zip l l))
    as [s|e] eqn:Hs.
  2:{ exfalso. clear -Hs. revert e Hs.
      induction (zip l l) as [|x z IH]; cbn; intros e Hs; [discriminate|].
      destruct (sort_decorated _ false z) as [s|e'] eqn:Hz; cbn in Hs.
      - destruct (insert_returns Str.lt false x s) as [r Hr]. congruence.
      - eapply IH. reflexivity. }
  rewrite bind_Return. eexists. split; [reflexivity|].
  pose proof (sort_decorated_perm_general _ _ _ _ Hs) as Hp.
  assert (Hvalues : map snd s ≡ₚ l).
  { rewrite Hp. change (map snd (zip l l)) with ((zip l l).*2).
    now rewrite snd_zip. }
  split; [exact Hvalues|].
  pose proof (sort_decorated_ascending Str.lt str_lt_asym str_lt_negtrans _ _ Hs)
    as Hsorted.
  assert (Hkeys : Forall (fun p : string * string => p.1 = p.2) s).
  { rewrite Hp. clear. induction l; cbn; constructor; auto. }
  assert (Hs' : StronglySorted (fun a b => Str.lt b a = false) (map snd s)).
  { clear -Hsorted Hkeys. induction Hsorted as [|p s _ IH Hp]; cbn; constructor.
    - apply IH. now inversion Hkeys.
    - inversion Hkeys as [|? ? Hpk Hsk]; subst.
      apply Forall_forall. intros b Hb.
      apply list_elem_of_In, in_map_iff in Hb as (q & <- & Hq%list_elem_of_In).
      rewrite <- Hpk, <- (proj1 (Forall_forall _ _) Hsk q Hq).
      exact (proj1 (Forall_forall _ _) Hp q Hq). }
  assert (Hnd' : NoDup (map snd s)) by now rewrite Hvalues.
  eapply StronglySorted_impl; [|exact (StronglySorted_strict _ _ Hs' Hnd')].
  intros a b [Hlt Hne]. apply str_lt_total; [congruence|exact Hlt].
Qed.

End AscendingStrings.

(** ** Java artifacts *)

Section JavaEvidence.

Import Py GoogleSearchAPI GoogleSearchOperations.

Lemma elem_of_fold_runtimes (text : string) (keys : list string)
    (found : gset string) (x : string) :
  x ∈ fold_left
        (fun found runtime =>
           if Str.contains runtime text then found ∪ {[ runtime ]} else found)
        keys found
  <-> x ∈ found \/ (x ∈ keys /\ Str.contains x text = true).
Proof.
  revert found. induction keys as [|k keys IH]; intros found; cbn [fold_left].
  - split; [auto|]. intros [Hx|[Hx _]]; [exact Hx|inversion Hx].
  - rewrite IH. destruct (Str.contains k text) eqn:E.
    + rewrite elem_of_union, elem_of_singleton, elem_of_cons. split.
      * intros [[Hx| ->]|[Hx Hc]]; auto.
      * intros [Hx|[[->|Hx] Hc]]; auto.
    + rewrite elem_of_cons. split.
      * intros [Hx|[Hx Hc]]; auto.
      * intros [Hx|[[->|Hx] Hc]]; auto. congruence.
Qed.

Lemma fold_scan_result package_name target_runtime results info :
  let final := fold_left (scan_result package_name target_runtime) results info in
  acc_is_compatible final =
    acc_is_compatible info || existsb (java_evidence package_name target_runtime) results
  /\ acc_evidence final =
       acc_evidence info ++
       map excerpt_of
         (filter (fun r => java_evidence package_name target_runtime r = true) results)
  /\ acc_recommendations final =
       acc_recommendations info ++
       map excerpt_of
         (filter (fun r => java_recommendation package_name r = true) results)
  /\ (forall x, x ∈ acc_supported_runtimes final <->
         x ∈ acc_supported_runtimes info
         \/ (x ∈ Dict.keys JAVA_RUNTIME_COMPATIBILITY
             /\ exists r, r ∈ results /\ names_runtime package_name x r = true)).
Proof.
  cbn zeta. revert info.
  induction results as [|r results IH]; intros info; cbn [fold_left].
  - cbn. rewrite orb_false_r, !app_nil_r. repeat split; auto.
    intros [Hx|(_ & r & Hr & _)]; [exact Hx|inversion Hr].
  - destruct (IH (scan_result package_name target_runtime info r))
      as (Hc & He & Hr & Hs).
    rewrite Hc, He, Hr. clear Hc He Hr. cbn [existsb].
    rewrite !(filter_cons _ r).
    assert (Hset : forall x,
              x ∈ acc_supported_runtimes (scan_result package_name target_runtime info r)
              <-> x ∈ acc_supported_runtimes info
                  \/ (x ∈ Dict.keys JAVA_RUNTIME_COMPATIBILITY
                      /\ names_runtime package_name x r = true)).
    { intros x. unfold scan_result, names_runtime, names_artifact.
      destruct (Str.contains (Str.lower package_name) _); cbn [andb].
      - cbn [acc_supported_runtimes]. apply elem_of_fold_runtimes.
      - split; [auto|]. intros [Hx|[_ Hx]]; [exact Hx|discriminate]. }
    split; [|split; [|split]].
    + unfold scan_result, java_evidence, names_artifact.
      destruct (Str.contains (Str.lower package_name) _); cbn [andb orb]; [|reflexivity].
      cbn [acc_is_compatible]. unfold indicated.
      destruct (_ && _); [now rewrite orb_true_r|reflexivity].
    + unfold scan_result, java_evidence, names_artifact.
      destruct (Str.contains (Str.lower package_name) _); cbn [andb].
      * cbn [acc_evidence]. unfold indicated. destruct (_ && _).
        -- rewrite decide_True by reflexivity. cbn. now rewrite <- List.app_assoc.
        -- rewrite decide_False by discriminate. reflexivity.
      * rewrite decide_False by discriminate. reflexivity.
    + unfold scan_result, java_recommendation, names_artifact.
      destruct (Str.contains (Str.lower package_name) _); cbn [andb].
      * cbn [acc_recommendations]. unfold recommended. destruct (_ || _).
        -- rewrite decide_True by reflexivity. cbn. now rewrite <- List.app_assoc.
        -- rewrite decide_False by discriminate. reflexivity.
      * rewrite decide_False by discriminate. reflexivity.
    + intros x. rewrite Hs, Hset. split.
      * intros [[Hx|[Hk Hn]]|(Hk & r' & Hr' & Hn)]; auto.
        -- right. split; [exact Hk|]. exists r. split; [left|exact Hn].
        -- right. split; [exact Hk|]. exists r'. split; [now right|exact Hn].
      * intros [Hx|(Hk & r' & Hr' & Hn)]; auto.
        apply elem_of_cons in Hr' as [->|Hr']; [auto|]. right. eauto.
Qed.

Lemma extract_java_compatibility_info_run results package_name target_runtime :
  exists r,
    _extract_java_compatibility_info results package_name target_runtime = Return r
    /\ evidence r =
         map excerpt_of
           (filter (fun x => java_evidence package_name target_runtime x = true) results)
    /\ recommendations r =
         map excerpt_of
           (filter (fun x => java_recommendation package_name x = true) results)
    /\ (forall x, x ∈ supported_runtimes r <->
           x ∈ Dict.keys JAVA_RUNTIME_COMPATIBILITY
           /\ exists res, res ∈ results /\ names_runtime package_name x res = true)
    /\ StronglySorted (fun a b => Str.lt a b = true) (supported_runtimes r)
    /\ (is_compatible r = true <->
         (exists res, res ∈ results
                      /\ java_evidence package_name target_runtime res = true)
         \/ exists x, x ∈ supported_runtimes r /\ x ∈ chain_of target_runtime).
Proof.
  unfold _extract_java_compatibility_info.
  set (info := fold_left _ results _).
  destruct (fold_scan_result package_name target_runtime results
              {| acc_is_compatible := false; acc_evidence := [];
                 acc_recommendations := []; acc_supported_runtimes := ∅ |})
    as (Hc & He & Hr & Hs).
  cbn zeta in Hc, He, Hr, Hs. fold info in Hc, He, Hr, Hs.
  cbn [acc_is_compatible acc_evidence acc_recommendations acc_supported_runtimes
       orb app] in Hc, He, Hr, Hs.
  destruct (sorted_str_ascending_spec (elements (acc_supported_runtimes info))
              (NoDup_elements _)) as (l & Hl & Hp & Hsorted).
  rewrite Hl, bind_Return. eexists. split; [reflexivity|].
  cbn [evidence recommendations supported_runtimes is_compatible].
  assert (Hmem : forall x, x ∈ l <-> x ∈ acc_supported_runtimes info).
  { intros x. now rewrite Hp, elem_of_elements. }
  split; [exact He|]. split; [exact Hr|]. split; [|split; [exact Hsorted|]].
  - intros x. rewrite Hmem, Hs. split; [|auto].
    intros [Hx|Hx]; [|exact Hx]. set_solver.
  - rewrite Hc. destruct (existsb _ results) eqn:E.
    + split; [|reflexivity]. intros _. left.
      apply existsb_exists in E as (res & Hres & Hev).
      exists res. split; [now apply list_elem_of_In|exact Hev].
    + unfold is_compatible_chain, chain_of. cbv zeta. rewrite existsb_exists. split.
      * intros (x & Hx & Hin). right. exists x. split.
        -- now apply Hmem, elem_of_elements, list_elem_of_In.
        -- now apply bool_decide_eq_true in Hin.
      * intros [(res & Hres & Hev)|(x & Hx & Hin)].
        -- exfalso. apply not_true_iff_false in E. apply E.
           apply existsb_exists. exists res. split; [|exact Hev].
           now apply list_elem_of_In.
        -- exists x. split.
           ++ now apply list_elem_of_In, elem_of_elements, Hmem.
           ++ now apply bool_decide_eq_true.
Qed.

(** X20. [_extract_java_compatibility_info] always returns.  Its evidence
    and recommendations are, in order, the excerpts of the results whose
    lower-cased text names the artifact and the target with an indicator
    phrase, respectively names the artifact with "recommend" or "suggest".
    The supported runtimes are the table's keys found in a result that names
    the artifact, each once, in ascending string order.  It reports
    compatibility exactly when there is direct evidence or a supported
    runtime is in the table's list for the lower-cased target. *)
Theorem extract_java_compatibility_info_exact
    (results : list search_result) (package_name target_runtime : string) :
  exists r,
    _extract_java_compatibility_info results package_name target_runtime = Return r
    /\ evidence r =
         map excerpt_of
           (filter (fun x => java_evidence package_name target_runtime x = true) results)
    /\ recommendations r =
         map excerpt_of
           (filter (fun x => java_recommendation package_name x = true) results)
    /\ (forall x, x ∈ supported_runtimes r <->
           x ∈ Dict.keys JAVA_RUNTIME_COMPATIBILITY
           /\ exists res, res ∈ results /\ names_runtime package_name x res = true)
    /\ StronglySorted (fun a b => Str.lt a b = true) (supported_runtimes r)
    /\ (is_compatible r = true <->
         (exists res, res ∈ results
                      /\ java_evidence package_name target_runtime res = true)
         \/ exists x, x ∈ supported_runtimes r /\ x ∈ chain_of target_runtime).
Proof. apply extract_java_compatibility_info_run. Qed.

(** X21. Every row of the runtime table lists [java8], the row of [java8]
    included.  So for a target that the table knows, one result that names
    the artifact and contains "java8" makes the answer compatible, whatever
    else the result says. *)
Theorem java8_mention_is_compatible
    (results : list search_result) (package_name target_runtime : string)
    (res : search_result) :
  Str.lower target_runtime ∈ Dict.keys JAVA_RUNTIME_COMPATIBILITY ->
  res ∈ results ->
  names_runtime package_name "java8" res = true ->
  exists r,
    _extract_java_compatibility_info results package_name target_runtime = Return r
    /\ is_compatible r = true
    /\ "java8" ∈ supported_runtimes r.
Proof.
  intros Hkey Hres Hname.
  destruct (extract_java_compatibility_info_run results package_name target_runtime)
    as (r & Hr & _ & _ & Hmem & _ & Hc).
  assert (H8 : "java8" ∈ supported_runtimes r).
  { apply Hmem. split; [|eauto]. vm_compute. apply list_elem_of_In.
    repeat (try (left; reflexivity); right). }
  exists r. split; [exact Hr|]. split; [|exact H8].
  apply Hc. right. exists "java8". split; [exact H8|].
  unfold chain_of. revert Hkey. generalize (Str.lower target_runtime). intros t Ht.
  apply list_elem_of_In in Ht. cbn in Ht.
  repeat (destruct Ht as [<-|Ht];
          [vm_compute; apply list_elem_of_In; cbn; tauto|]).
  contradiction.
Qed.

End JavaEvidence.

(** ** Java reports *)

Section JavaReports.

Import Py GoogleSearchAPI GoogleSearchOperations.

Context `{SetIteration}.



End JavaReports.

(** ** The fallback tool *)

Section Fallback.

Import Py GoogleSearchAPI GoogleSearchOperations Tools.

(** X23. [get_compatible_versions_fallback] never raises and calls the
    service once, asking for 5 results.  When the service fails, or no
    version token is found in the results that mention both names, the
    answer is the error "No compatible versions found ..." (the cause of a
    failed search is not reported).  Otherwise the answer lists the tokens of
    [extract_versions], and its latest version is their first, the greatest
    in plain string order.  The current version plays no part. *)
Theorem get_compatible_versions_fallback_outcomes
    (srv : service) (package_name target_framework : string)
    (current_version : option string) (log : list call) :
  let c := {| call_q := package_name +:+ " compatible with " +:+ target_framework
                          +:+ " version compatibility";
              call_num := 5 |} in
  let not_found :=
    FallbackError
      ("No compatible versions found for " +:+ package_name +:+ " with "
         +:+ target_framework)
      "google_search" in
  exists answer,
    get_compatible_versions_fallback srv package_name target_framework
      current_version log = (Return answer, log ++ [c])
    /\ (forall e, srv log c = Raise e -> answer = not_found)
    /\ (forall response, srv log c = Return response ->
        exists versions,
          extract_versions (map result_of_item (resp_items response))
            package_name target_framework = Return versions
          /\ answer =
             match versions with
             | [] => not_found
             | latest :: _ =>
                 FallbackSuccess
                   {| fb_package_name := package_name;
                      fb_target_framework := target_framework;
                      fb_compatible_versions := versions;
                      fb_latest_compatible := latest;
                      fb_source := "google_search" |}
             end)
    /\ (forall fields, answer = FallbackSuccess fields ->
        forall v, v ∈ fb_compatible_versions fields ->
          v = fb_latest_compatible fields
          \/ Str.lt v (fb_latest_compatible fields) = true).
Proof.
  cbv zeta. unfold get_compatible_versions_fallback, io_try_except.
  unfold mbind at 1, io_bind at 1. rewrite search_run.
  change (clamp 5) with 5%Z.
  destruct (srv log _) as [response|e] eqn:Hsrv.
  - destruct (extract_versions_run (map result_of_item (resp_items response))
                package_name target_framework) as (l & Hl & _ & _ & Hsorted).
    cbn [results]. unfold lift, mbind, io_bind. rewrite Hl.
    destruct l as [|latest l].
    + eexists. split; [reflexivity|]. split; [discriminate|]. split.
      * intros r [= <-]. exists []. auto.
      * discriminate.
    + eexists. split; [reflexivity|]. split; [discriminate|]. split.
      * intros r [= <-]. exists (latest :: l). auto.
      * intros fields [= <-] v Hv. cbn in *.
        apply StronglySorted_inv in Hsorted as [_ Hall].
        apply elem_of_cons in Hv as [->|Hv]; [auto|].
        right. exact (proj1 (Forall_forall _ _) Hall v Hv).
  - eexists. split; [reflexivity|]. split; [reflexivity|]. split; discriminate.
Qed.

End Fallback.

(** ** Failures of the registry *)

Section RegistryFailures.

Import Py NuGetAPI NuGetOperations.

Context `{PackagingVersion}.

(** X24. [get_compatible_versions] never raises, whatever the registry
    answers and whatever the version library does: its second handler
    catches every exception.  A failed fetch is reported as "Failed to fetch
    compatible versions: ..." when it is a request error and as "Unexpected
    error: ..." otherwise. *)
Theorem get_compatible_versions_never_raises
    (response : result registration_index)
    (package_id target_framework : string) (current_version : option string) :
  (exists r,
     get_compatible_versions response package_id target_framework current_version
     = Return r)
  /\ (forall e,
        get_compatible_versions (Raise e) package_id target_framework current_version
        = Return (Error
            ((if exn_class_eqb (class_of e) RequestException
              then "Failed to fetch compatible versions: "
              else "Unexpected error: ") +:+ str e))).
Proof.
  split; [apply get_compatible_versions_returns|].
  intros [c message]. unfold get_compatible_versions. cbn.
  destruct c; reflexivity.
Qed.

(** X25. The operations on one version convert a failed fetch into an error
    envelope only when it is a request error; any other exception leaves the
    function.  [get_latest_compatible_version] converts every exception of
    either fetch, and its message is the bare text of the exception. *)
Theorem registry_operations_fetch_failure
    (e : exn) (now package_id version target_framework : string) :
  get_package_dependencies (Raise e) package_id version target_framework =
    (if exn_class_eqb (class_of e) RequestException
     then Return (Error ("Failed to fetch dependencies: " +:+ str e))
     else Raise e)
  /\ get_package_metadata (Raise e) package_id version =
       (if exn_class_eqb (class_of e) RequestException
        then Return (Error ("Failed to fetch metadata: " +:+ str e))
        else Raise e)
  /\ check_package_vulnerabilities (D := unit) (Raise e) now package_id version =
       (if exn_class_eqb (class_of e) RequestException
        then Return (Error ("Failed to check vulnerabilities: " +:+ str e))
        else Raise e)
  /\ (forall metadata_response,
        get_latest_compatible_version (Raise e) metadata_response
          package_id target_framework = Return (Error (str e)))
  /\ (forall v versions,
        get_latest_compatible_version (Return (v :: versions)) (Raise e)
          package_id target_framework = Return (Error (str e))).
Proof.
  destruct e as [c message].
  repeat split; try (destruct c; reflexivity).
Qed.

End RegistryFailures.

(** ** Sample runs *)

Section SampleRuns.

Import Py NuGetAPI NuGetOperations GoogleSearchAPI GoogleSearchOperations.

Lemma get_package_dependencies_raw_framework_witness :
  (forall e g, e ∈ concat Samples.detailed_catalog -> cd_version e = Some "1.0.0" ->
     g ∈ cd_dependencyGroups e -> gd_targetFramework g <> Some "net45")
  /\ get_package_dependencies (Return Samples.detailed_catalog) "Pkg" "1.0.0" "net45" =
     Return (Success
       {| dr_package_id := "Pkg";
          dr_version := "1.0.0";
          dr_target_framework := "net45";
          dr_dependencies := [] |}).
Proof.
  assert (Hnone : forall e g, e ∈ concat Samples.detailed_catalog ->
            cd_version e = Some "1.0.0" ->
            g ∈ cd_dependencyGroups e -> gd_targetFramework g <> Some "net45").
  { intros e g He _ Hg. cbn in He.
    apply list_elem_of_singleton in He. subst e. cbn in Hg.
    apply list_elem_of_singleton in Hg. subst g. cbn. discriminate. }
  split; [exact Hnone|].
  exact (get_package_dependencies_raw_framework Samples.detailed_catalog
           "Pkg" "1.0.0" "net45" Hnone).
Defined.

Lemma negated_indicator_counts_as_evidence_witness :
  Samples.negative_result ∈ [Samples.negative_result]
  /\ mentions "Pkg" "net48" (Str.lower (text_of Samples.negative_result)) = true
  /\ (Str.contains "incompatible" (Str.lower (text_of Samples.negative_result)) = true
      \/ Str.contains "unsupported" (Str.lower (text_of Samples.negative_result)) = true)
  /\ ci_is_compatible
       (_extract_compatibility_info [Samples.negative_result] "Pkg" "net48") = true
  /\ excerpt_of Samples.negative_result
       ∈ ci_evidence (_extract_compatibility_info [Samples.negative_result] "Pkg" "net48").
Proof.
  assert (Hin : Samples.negative_result ∈ [Samples.negative_result]) by left.
  assert (Hm : mentions "Pkg" "net48" (Str.lower (text_of Samples.negative_result))
               = true) by (vm_compute; reflexivity).
  assert (Hneg : Str.contains "incompatible"
                   (Str.lower (text_of Samples.negative_result)) = true
                 \/ Str.contains "unsupported"
                      (Str.lower (text_of Samples.negative_result)) = true)
    by (left; vm_compute; reflexivity).
  split; [exact Hin|]. split; [exact Hm|]. split; [exact Hneg|].
  exact (negated_indicator_counts_as_evidence [Samples.negative_result] "Pkg" "net48"
           Samples.negative_result Hin Hm Hneg).
Defined.

Lemma check_package_compatibility_all_searches_fail_witness :
  (forall log c, exists e, Samples.failing_service log c = Raise e)
  /\ fst (check_package_compatibility (H := elements_iteration)
            Samples.failing_service "2024-01-01T00:00:00" "Pkg" "1.0.0" "net48" []) =
     Return (Success
       {| cr_package_name := "Pkg";
          cr_current_version := "1.0.0";
          cr_target_framework := "net48";
          cr_compatibility :=
            {| ci_is_compatible := false; ci_evidence := []; ci_recommendations := [] |};
          cr_vulnerabilities := {| has_vulnerabilities := false; vulnerabilities := [] |};
          cr_latest_version := "unknown";
          cr_last_checked := "2024-01-01T00:00:00" |}).
Proof.
  assert (Hfail : forall log c, exists e, Samples.failing_service log c = Raise e).
  { intros log c. eexists. reflexivity. }
  split; [exact Hfail|].
  exact (check_package_compatibility_all_searches_fail (H := elements_iteration)
           Samples.failing_service "2024-01-01T00:00:00" "Pkg" "1.0.0" "net48" [] Hfail).
Defined.

Lemma java8_mention_is_compatible_witness :
  Str.lower "Java21" ∈ Dict.keys JAVA_RUNTIME_COMPATIBILITY
  /\ Samples.java8_result ∈ [Samples.java8_result]
  /\ names_runtime "acme:lib" "java8" Samples.java8_result = true
  /\ exists r,
       _extract_java_compatibility_info [Samples.java8_result] "acme:lib" "Java21"
       = Return r
       /\ is_compatible r = true
       /\ "java8" ∈ supported_runtimes r.
Proof.
  assert (Hkey : Str.lower "Java21" ∈ Dict.keys JAVA_RUNTIME_COMPATIBILITY)
    by (vm_compute; left).
  assert (Hin : Samples.java8_result ∈ [Samples.java8_result]) by left.
  assert (Hname : names_runtime "acme:lib" "java8" Samples.java8_result = true)
    by (vm_compute; reflexivity).
  split; [exact Hkey|]. split; [exact Hin|]. split; [exact Hname|].
  exact (java8_mention_is_compatible [Samples.java8_result] "acme:lib" "Java21"
           Samples.java8_result Hkey Hin Hname).
Defined.

End SampleRuns.
